(** * Task Management API (src/task-api)

    A shallow embedding of [models.py] (the SQLModel classes and their field
    constraints), of the part of the storage engine the handlers rely on
    (one table, primary-key lookup, SELECT with WHERE / OFFSET / LIMIT,
    INSERT, UPDATE, DELETE) and of the request handlers of [main.py],
    followed by the properties of the CRUD contract.

    Conventions.
    - Python [int] is [Z]; [str] is [string]; [Optional[T]] is [option T];
      [len] of a query result is a [nat].
    - A [datetime] is a [Z] (a point on the time line); [datetime.utcnow()]
      reads the next value of a clock given as a sequence of readings.
    - A string is its sequence of characters, and its length their number.
    - The table is the list of its rows in the order in which a SELECT
      without ORDER BY returns them, the only order the handlers ever ask
      for.  An INSERT puts the new row last.  On SQLite an UPDATE rewrites
      the row where it is (the scan is by rowid); on PostgreSQL it writes a
      new version of the row, which the scan meets last.
    - Both engines hold keys, offsets and limits as signed 64-bit integers;
      a Python [int] outside that range is refused when the statement is
      run.
    - Request bodies and parameters are of the annotated types: what the
      framework does with a body that is not a JSON object of strings and
      integers is outside the model. *)

From Stdlib Require Import ZArith List String Ascii Bool Lia.
From Stdlib Require Import DecimalString DecimalZ.
From Stdlib Require Import Sorted.
Import ListNotations.

Local Open Scope string_scope.
Local Open Scope Z_scope.
Local Open Scope list_scope.

(* ================================================================== *)
(** ** models.py *)
(* ================================================================== *)

Module Models.

(** A member of a JSON request body: left out, sent as [null], or sent with
    a value of the annotated type. *)
Inductive member (A : Type) : Type :=
| Unset
| Null
| Value (a : A).
Arguments Unset {A}.
Arguments Null {A}.
Arguments Value {A} a.

(** The request body shared by POST /tasks and PUT /tasks/{task_id}. *)
Record Payload : Type := {
  p_title : member string;
  p_description : member string;
  p_status : member string;
  p_priority : member Z
}.

(** What a validation error says about one field; [invalid_type] is the
    error for [null] where a [str] or an [int] is required. *)
Inductive ErrorType : Type :=
| missing
| invalid_type
| string_too_short
| string_too_long
| string_pattern_mismatch
| greater_than_equal
| less_than_equal.

Record ErrorItem : Type := { loc : string; msg : ErrorType }.

(** *** The keyword arguments of [Field(...)] *)

Definition constraint (A : Type) : Type := A -> option ErrorType.

Definition min_length (n : nat) : constraint string :=
  fun s => if (String.length s <? n)%nat then Some string_too_short else None.

Definition max_length (n : nat) : constraint string :=
  fun s => if (n <? String.length s)%nat then Some string_too_long else None.

Definition ge (n : Z) : constraint Z :=
  fun v => if v <? n then Some greater_than_equal else None.

Definition le (n : Z) : constraint Z :=
  fun v => if n <? v then Some less_than_equal else None.

(** The patterns the models name: an alternation of literals between the
    anchors [^] and [$], so that the whole input has to be one of the
    literals. *)
Inductive pattern : Type :=
| Lit (s : string)
| Alt (r1 r2 : pattern).

Fixpoint fullmatch (r : pattern) (s : string) : bool :=
  match r with
  | Lit l => String.eqb l s
  | Alt r1 r2 => fullmatch r1 s || fullmatch r2 s
  end.

(** [^(pending|in_progress|completed)$] *)
Definition status_pattern : pattern :=
  Alt (Lit "pending") (Alt (Lit "in_progress") (Lit "completed")).

(** The first constraint a value breaks, if any. *)
Fixpoint check {A : Type} (cs : list (constraint A)) (a : A) : option ErrorType :=
  match cs with
  | [] => None
  | c :: cs' =>
      match c a with
      | Some e => Some e
      | None => check cs' a
      end
  end.

(** [name: T = Field(...)] with no default: the member is required. *)
Definition required {A : Type} (cs : list (constraint A)) (m : member A)
  : ErrorType + A :=
  match m with
  | Unset => inl missing
  | Null => inl invalid_type
  | Value a => match check cs a with Some e => inl e | None => inr a end
  end.

(** [name: T = Field(default=d, ...)]: the default stands in for a member
    that was left out; [null] is not a [T]. *)
Definition with_default {A : Type} (d : A) (cs : list (constraint A))
    (m : member A) : ErrorType + A :=
  match m with
  | Unset => inr d
  | Null => inl invalid_type
  | Value a => match check cs a with Some e => inl e | None => inr a end
  end.

(** [name: Optional[T] = Field(None, ...)]: [None] is a value of the field,
    and the constraints apply to a value that is not [None]. *)
Definition optional {A : Type} (cs : list (constraint A)) (m : member A)
  : ErrorType + option A :=
  match m with
  | Unset => inr None
  | Null => inr None
  | Value a => match check cs a with Some e => inl e | None => inr (Some a) end
  end.

Definition errors_at {A : Type} (name : string) (r : ErrorType + A)
  : list ErrorItem :=
  match r with
  | inl e => [ {| loc := name; msg := e |} ]
  | inr _ => []
  end.

(** *** class TaskBase / class TaskCreate(TaskBase) *)

Definition title_constraints : list (constraint string) :=
  [min_length 1; max_length 200].
Definition description_constraints : list (constraint string) :=
  [max_length 2000].
(** [status] is declared with [regex=...] and nothing else.  The validation
    library the program runs on ([config.py] imports [pydantic_settings],
    which needs pydantic 2) knows this constraint as [pattern] and builds
    no check from the keyword [regex]: the field is left with no
    constraint but its type. *)
Definition status_constraints : list (constraint string) :=
  [].
Definition priority_constraints : list (constraint Z) :=
  [ge 1; le 3].

Record TaskCreate : Type := {
  c_title : string;
  c_description : option string;
  c_status : string;
  c_priority : Z
}.

(** Validation of a request body against [TaskCreate]: the model instance,
    or one error item per offending field, in field order. *)
Definition TaskCreate_validate (body : Payload) : list ErrorItem + TaskCreate :=
  let t := required title_constraints (p_title body) in
  let d := optional description_constraints (p_description body) in
  let s := with_default "pending"%string status_constraints (p_status body) in
  let p := with_default 1 priority_constraints (p_priority body) in
  match t, d, s, p with
  | inr t', inr d', inr s', inr p' =>
      inr {| c_title := t'; c_description := d'; c_status := s'; c_priority := p' |}
  | _, _, _, _ =>
      inl (errors_at "title" t ++ errors_at "description" d
           ++ errors_at "status" s ++ errors_at "priority" p)
  end.

(** *** class TaskUpdate(SQLModel)

    Every field is [Optional[...] = Field(None, ...)].  An instance keeps,
    with the values, the set of fields the body provided, which is what
    [dict(exclude_unset=True)] reads: it is represented by the body. *)
Definition TaskUpdate : Type := Payload.

Definition TaskUpdate_validate (body : Payload) : list ErrorItem + TaskUpdate :=
  let t := optional title_constraints (p_title body) in
  let d := optional description_constraints (p_description body) in
  let s := optional status_constraints (p_status body) in
  let p := optional priority_constraints (p_priority body) in
  match t, d, s, p with
  | inr _, inr _, inr _, inr _ => inr body
  | _, _, _, _ =>
      inl (errors_at "title" t ++ errors_at "description" d
           ++ errors_at "status" s ++ errors_at "priority" p)
  end.

(** One item of [task_update.dict(exclude_unset=True)]: a field name with
    the value to assign. *)
Inductive Item : Type :=
| title_item (v : option string)
| description_item (v : option string)
| status_item (v : option string)
| priority_item (v : option Z).

Definition item_of {A : Type} (mk : option A -> Item) (m : member A) : list Item :=
  match m with
  | Unset => []
  | Null => [mk None]
  | Value a => [mk (Some a)]
  end.

Definition dict_exclude_unset (u : TaskUpdate) : list Item :=
  item_of title_item (p_title u) ++ item_of description_item (p_description u)
  ++ item_of status_item (p_status u) ++ item_of priority_item (p_priority u).

(** *** class Task(TaskBase, table=True)

    [Task] is a row of the table: the primary key and the columns of a
    non-Optional annotation (NOT NULL) always hold a value. *)
Record Task : Type := {
  id : Z;
  title : string;
  description : option string;
  status : string;
  priority : Z;
  created_at : Z;
  updated_at : Z
}.

(** An instance of class [Task] held by a session: [id] is [None] until the
    INSERT, and [setattr] stores whatever it is given, [None] included. *)
Record Instance : Type := {
  o_id : option Z;
  o_title : option string;
  o_description : option string;
  o_status : option string;
  o_priority : option Z;
  o_created_at : Z;
  o_updated_at : Z
}.

(** [Task.from_orm(task)]: the fields of the payload, no id, and the two
    [default_factory=datetime.utcnow] fields filled in field order. *)
Definition from_orm (task : TaskCreate) (t_created t_updated : Z) : Instance :=
  {| o_id := None;
     o_title := Some (c_title task);
     o_description := c_description task;
     o_status := Some (c_status task);
     o_priority := Some (c_priority task);
     o_created_at := t_created;
     o_updated_at := t_updated |}.

(** The instance [session.get] loads from a row. *)
Definition loaded (t : Task) : Instance :=
  {| o_id := Some (id t);
     o_title := Some (title t);
     o_description := description t;
     o_status := Some (status t);
     o_priority := Some (priority t);
     o_created_at := created_at t;
     o_updated_at := updated_at t |}.

(** [setattr(db_task, field, value)] *)
Definition setattr (o : Instance) (it : Item) : Instance :=
  match it with
  | title_item v =>
      {| o_id := o_id o; o_title := v; o_description := o_description o;
         o_status := o_status o; o_priority := o_priority o;
         o_created_at := o_created_at o; o_updated_at := o_updated_at o |}
  | description_item v =>
      {| o_id := o_id o; o_title := o_title o; o_description := v;
         o_status := o_status o; o_priority := o_priority o;
         o_created_at := o_created_at o; o_updated_at := o_updated_at o |}
  | status_item v =>
      {| o_id := o_id o; o_title := o_title o; o_description := o_description o;
         o_status := v; o_priority := o_priority o;
         o_created_at := o_created_at o; o_updated_at := o_updated_at o |}
  | priority_item v =>
      {| o_id := o_id o; o_title := o_title o; o_description := o_description o;
         o_status := o_status o; o_priority := v;
         o_created_at := o_created_at o; o_updated_at := o_updated_at o |}
  end.

(** [db_task.updated_at = now] *)
Definition set_updated_at (o : Instance) (now : Z) : Instance :=
  {| o_id := o_id o; o_title := o_title o; o_description := o_description o;
     o_status := o_status o; o_priority := o_priority o;
     o_created_at := o_created_at o; o_updated_at := now |}.

End Models.

(* ================================================================== *)
(** ** The storage engine behind database.py *)
(* ================================================================== *)

Module Database.
Import Models.

(** The two engines the repository runs on: PostgreSQL in [main.py] and
    [config.py], in-memory SQLite in [test_main.py].  They differ in how the
    key of a new row is chosen and in what a negative OFFSET or LIMIT does. *)
Inductive Dialect : Type := PostgreSQL | SQLite.

(** The table [task] and the sequence behind its serial primary key. *)
Record DB : Type := {
  tasks : list Task;
  task_id_seq : Z
}.

Definition empty : DB := {| tasks := []; task_id_seq := 0 |}.

Inductive DBError : Type := IntegrityError | DataError | OverflowError.

(** A signed 64-bit integer. *)
Definition fits_int64 (n : Z) : bool :=
  (- 2 ^ 63 <=? n) && (n <? 2 ^ 63).

(** The row with a given primary key. *)
Definition get (task_id : Z) (d : DB) : option Task :=
  find (fun t => id t =? task_id) (tasks d).

(** [session.get(Task, task_id)].  SQLite cannot bind a key outside 64 bits
    as a parameter and the driver raises OverflowError; no row has such a
    key, so the error shows exactly when the lookup has nothing to find.
    PostgreSQL compares the key as a number and finds no row. *)
Definition session_get (dl : Dialect) (task_id : Z) (d : DB)
  : DBError + option Task :=
  match get task_id d with
  | Some t => inr (Some t)
  | None =>
      match dl with
      | PostgreSQL => inr None
      | SQLite => if fits_int64 task_id then inr None else inl OverflowError
      end
  end.

(** A SELECT statement over [Task], as [select(Task)] and the methods
    [where], [offset] and [limit] build it. *)
Record Select : Type := {
  st_where : option string;
  st_offset : option Z;
  st_limit : option Z
}.

Definition select_Task : Select :=
  {| st_where := None; st_offset := None; st_limit := None |}.

(** [statement.where(Task.status == s)] *)
Definition where_status (st : Select) (s : string) : Select :=
  {| st_where := Some s; st_offset := st_offset st; st_limit := st_limit st |}.

Definition offset (st : Select) (n : Z) : Select :=
  {| st_where := st_where st; st_offset := Some n; st_limit := st_limit st |}.

Definition limit (st : Select) (n : Z) : Select :=
  {| st_where := st_where st; st_offset := st_offset st; st_limit := Some n |}.

Definition selected (w : option string) (l : list Task) : list Task :=
  match w with
  | Some s => filter (fun t => String.eqb (status t) s) l
  | None => l
  end.

Definition negative (n : option Z) : bool :=
  match n with
  | Some k => k <? 0
  | None => false
  end.

Definition after_offset (n : option Z) (l : list Task) : list Task :=
  match n with
  | Some k => skipn (Z.to_nat k) l
  | None => l
  end.

Definition up_to_limit (n : option Z) (l : list Task) : list Task :=
  match n with
  | Some k => if k <? 0 then l else firstn (Z.to_nat k) l
  | None => l
  end.

Definition unbindable (n : option Z) : bool :=
  match n with
  | Some k => negb (fits_int64 k)
  | None => false
  end.

(** Running a SELECT: WHERE, then OFFSET, then LIMIT.  Neither engine takes
    an OFFSET or LIMIT outside 64 bits.  Within 64 bits, PostgreSQL refuses
    a negative OFFSET or LIMIT; SQLite reads a negative OFFSET as 0 and a
    negative LIMIT as no limit. *)
Definition exec (dl : Dialect) (st : Select) (d : DB) : DBError + list Task :=
  let result :=
    up_to_limit (st_limit st)
      (after_offset (st_offset st) (selected (st_where st) (tasks d))) in
  match dl with
  | PostgreSQL =>
      if unbindable (st_offset st) || unbindable (st_limit st)
         || negative (st_offset st) || negative (st_limit st)
      then inl DataError
      else inr result
  | SQLite =>
      if unbindable (st_offset st) || unbindable (st_limit st)
      then inl OverflowError
      else inr result
  end.

(** The row an instance is written as; [None] when a NOT NULL column would
    receive NULL. *)
Definition row (pk : Z) (o : Instance) : option Task :=
  match o_title o, o_status o, o_priority o with
  | Some t, Some s, Some p =>
      Some {| id := pk; title := t; description := o_description o;
              status := s; priority := p;
              created_at := o_created_at o; updated_at := o_updated_at o |}
  | _, _, _ => None
  end.

(** The key of the next row: the next value of the sequence in PostgreSQL,
    one more than the largest key in use in SQLite (keys are positive). *)
Definition next_id (dl : Dialect) (d : DB) : Z :=
  match dl with
  | PostgreSQL => task_id_seq d + 1
  | SQLite => fold_right Z.max 0 (map id (tasks d)) + 1
  end.

(** INSERT of a new instance (one whose id is [None]). *)
Definition insert (dl : Dialect) (o : Instance) (d : DB) : DBError + (Task * DB) :=
  let pk := next_id dl d in
  match row pk o with
  | None => inl IntegrityError
  | Some t =>
      inr (t, {| tasks := tasks d ++ [t];
                 task_id_seq := match dl with
                                | PostgreSQL => pk
                                | SQLite => task_id_seq d
                                end |})
  end.

(** The table after the row of key [pk] has been rewritten as [t]: in
    place on SQLite, as a new version met last by the scan on PostgreSQL. *)
Definition rewritten (dl : Dialect) (pk : Z) (t : Task) (l : list Task)
  : list Task :=
  match dl with
  | SQLite => map (fun r => if id r =? pk then t else r) l
  | PostgreSQL => filter (fun r => negb (id r =? pk)) l ++ [t]
  end.

(** UPDATE ... WHERE id = pk, from the attributes of a loaded instance. *)
Definition update (dl : Dialect) (pk : Z) (o : Instance) (d : DB)
  : DBError + (Task * DB) :=
  match row pk o with
  | None => inl IntegrityError
  | Some t =>
      inr (t, {| tasks := rewritten dl pk t (tasks d);
                 task_id_seq := task_id_seq d |})
  end.

(** DELETE ... WHERE id = pk *)
Definition delete (pk : Z) (d : DB) : DB :=
  {| tasks := filter (fun r => negb (id r =? pk)) (tasks d);
     task_id_seq := task_id_seq d |}.

End Database.

(* ================================================================== *)
(** ** main.py *)
(* ================================================================== *)

Module Main.
Import Models Database.

Inductive Exception : Type :=
| HTTPException (status_code : Z) (detail : string)
| RequestValidationError (errors : list ErrorItem)
| DatabaseError (e : DBError).

(** What a handler ends with: a value to serialise, or an exception. *)
Inductive Result (A : Type) : Type :=
| Return (a : A)
| Raise (e : Exception).
Arguments Return {A} a.
Arguments Raise {A} e.

Definition bind {A B : Type} (r : Result A) (k : A -> Result B) : Result B :=
  match r with
  | Return a => k a
  | Raise e => Raise e
  end.

Notation "x <- r ;; k" := (bind r (fun x => k))
  (at level 61, r at next level, right associativity).

Definition HTTP_404_NOT_FOUND : Z := 404.

(** The status line of the response: the route's success code, the code of
    an [HTTPException], 422 for a body that fails validation, 500 for an
    exception nobody handles. *)
Definition status_code {A : Type} (success : Z) (r : Result A) : Z :=
  match r with
  | Return _ => success
  | Raise (HTTPException c _) => c
  | Raise (RequestValidationError _) => 422
  | Raise (DatabaseError _) => 500
  end.

(** [str(n)] for an [int]: decimal digits, with a minus sign when negative. *)
Definition str (n : Z) : string := NilZero.string_of_int (Z.to_int n).

(** [f"Task with ID {task_id} not found"] *)
Definition not_found_detail (task_id : Z) : string :=
  ("Task with ID " ++ str task_id ++ " not found")%string.

(** What the service acts on: the database, and how many times the clock
    has been read. *)
Record World : Type := {
  db : DB;
  reads : nat
}.

Definition initial : World := {| db := empty; reads := 0 |}.

Record Stats : Type := {
  total : nat;
  pending : nat;
  in_progress : nat;
  completed : nat
}.

Section Service.

Variable dialect : Dialect.
(** The successive readings of the system clock. *)
Variable clock : nat -> Z.

(** [datetime.utcnow()] *)
Definition utcnow (w : World) : Z * World :=
  (clock (reads w), {| db := db w; reads := S (reads w) |}).

(** [session.exec(statement).all()] *)
Definition session_exec (st : Select) (w : World) : Result (list Task) :=
  match exec dialect st (db w) with
  | inl e => Raise (DatabaseError e)
  | inr l => Return l
  end.

(** POST /tasks, the handler; the success code of the route is 201. *)
Definition create_task (task : TaskCreate) (w : World) : Result Task * World :=
  let '(t_created, w) := utcnow w in
  let '(t_updated, w) := utcnow w in
  let db_task := from_orm task t_created t_updated in
  match insert dialect db_task (db w) with
  | inl e => (Raise (DatabaseError e), w)
  | inr (t, d') => (Return t, {| db := d'; reads := reads w |})
  end.

(** GET /tasks *)
Definition list_tasks (skip lim : Z) (status_filter : option string) (w : World)
  : Result (list Task) :=
  let statement := select_Task in
  let statement :=
    match status_filter with
    | None => statement
    | Some s => if String.eqb s "" then statement else where_status statement s
    end in
  session_exec (limit (offset statement skip) lim) w.

(** GET /tasks/{task_id} *)
Definition read_task (task_id : Z) (w : World) : Result Task :=
  match session_get dialect task_id (db w) with
  | inl e => Raise (DatabaseError e)
  | inr None =>
      Raise (HTTPException HTTP_404_NOT_FOUND (not_found_detail task_id))
  | inr (Some task) => Return task
  end.

(** PUT /tasks/{task_id}, the handler. *)
Definition update_task (task_id : Z) (task_update : TaskUpdate) (w : World)
  : Result Task * World :=
  match session_get dialect task_id (db w) with
  | inl e => (Raise (DatabaseError e), w)
  | inr None =>
      (Raise (HTTPException HTTP_404_NOT_FOUND (not_found_detail task_id)), w)
  | inr (Some found) =>
      let db_task := loaded found in
      let update_data := dict_exclude_unset task_update in
      let db_task := fold_left setattr update_data db_task in
      let '(now, w) := utcnow w in
      let db_task := set_updated_at db_task now in
      match update dialect task_id db_task (db w) with
      | inl e => (Raise (DatabaseError e), w)
      | inr (t, d') => (Return t, {| db := d'; reads := reads w |})
      end
  end.

(** DELETE /tasks/{task_id}; the success code of the route is 204. *)
Definition delete_task (task_id : Z) (w : World) : Result unit * World :=
  match session_get dialect task_id (db w) with
  | inl e => (Raise (DatabaseError e), w)
  | inr None =>
      (Raise (HTTPException HTTP_404_NOT_FOUND (not_found_detail task_id)), w)
  | inr (Some _) =>
      (Return tt, {| db := delete task_id (db w); reads := reads w |})
  end.

(** GET /stats *)
Definition get_stats (w : World) : Result Stats :=
  all <- session_exec select_Task w ;;
  p <- session_exec (where_status select_Task "pending") w ;;
  ip <- session_exec (where_status select_Task "in_progress") w ;;
  c <- session_exec (where_status select_Task "completed") w ;;
  Return {| total := List.length all; pending := List.length p;
            in_progress := List.length ip; completed := List.length c |}.

(** GET /health: the timestamp of the answer. *)
Definition health_check (w : World) : Z * World := utcnow w.

(** *** The routes: the body is validated before the handler runs *)

Definition post_tasks (body : Payload) (w : World) : Result Task * World :=
  match TaskCreate_validate body with
  | inl errors => (Raise (RequestValidationError errors), w)
  | inr task => create_task task w
  end.

Definition put_task (task_id : Z) (body : Payload) (w : World)
  : Result Task * World :=
  match TaskUpdate_validate body with
  | inl errors => (Raise (RequestValidationError errors), w)
  | inr task_update => update_task task_id task_update w
  end.

(** *** Sequences of requests *)

Inductive Request : Type :=
| POST_tasks (body : Payload)
| GET_tasks (skip lim : Z) (status_filter : option string)
| GET_task (task_id : Z)
| PUT_task (task_id : Z) (body : Payload)
| DELETE_task (task_id : Z)
| GET_stats
| GET_health.

(** The world after a request has been served. *)
Definition serve (w : World) (r : Request) : World :=
  match r with
  | POST_tasks body => snd (post_tasks body w)
  | PUT_task task_id body => snd (put_task task_id body w)
  | DELETE_task task_id => snd (delete_task task_id w)
  | GET_health => snd (health_check w)
  | GET_tasks _ _ _ | GET_task _ | GET_stats => w
  end.

Definition run (rs : list Request) : World := fold_left serve rs initial.

End Service.

End Main.

(* ================================================================== *)
(** ** Starting up: on_startup (main.py), create_db_and_tables
       (database.py), Settings (config.py) *)
(* ================================================================== *)

Module Startup.

(** [class Settings(BaseSettings)] *)
Record Settings : Type := {
  database_url : string;
  debug : bool;
  api_title : string;
  api_version : string;
  host : string;
  port : Z
}.

(** [c in s] for a one-character [c]. *)
Fixpoint contains (c : ascii) (s : string) : bool :=
  match s with
  | EmptyString => false
  | String x s' => Ascii.eqb x c || contains c s'
  end.

(** [s.split(sep)] for a one-character [sep]: the pieces between the
    occurrences of [sep], one piece more than there are occurrences. *)
Fixpoint split (sep : ascii) (s : string) : list string :=
  match s with
  | EmptyString => [EmptyString]
  | String x s' =>
      if Ascii.eqb x sep then EmptyString :: split sep s'
      else match split sep s' with
           | piece :: pieces => String x piece :: pieces
           | [] => [String x EmptyString]
           end
  end.

(** [url.split('@')[1] if '@' in url else 'Not configured']; [None] stands
    for the IndexError of an index out of range. *)
Definition database_label (url : string) : option string :=
  if contains "@" url then nth_error (split "@" url) 1
  else Some "Not configured"%string.

(** [create_db_and_tables()], given what [SQLModel.metadata.create_all]
    does: [None] when it returns, [Some e] when it raises an exception that
    prints as [e].  The result is what is printed and the exception raised
    again, if any. *)
Definition create_db_and_tables (create_all : option string)
  : list string * option string :=
  match create_all with
  | None => (["[OK] Database tables created successfully"%string], None)
  | Some e => ([("[ERROR] Database error: " ++ e)%string], Some e)
  end.

Inductive Outcome : Type :=
| Ready
| IndexError
| Raised (e : string).

(** [on_startup()]: the lines printed, and how the event handler ends. *)
Definition on_startup (settings : Settings) (create_all : option string)
  : list string * Outcome :=
  let out := ["[*] Starting Task Management API..."%string] in
  match database_label (database_url settings) with
  | None => (out, IndexError)
  | Some label =>
      let out := out ++ [("[DB] Database: " ++ label)%string] in
      match create_db_and_tables create_all with
      | (lines, Some e) => (out ++ lines, Raised e)
      | (lines, None) =>
          (out ++ lines ++ ["[OK] API ready to accept requests"%string], Ready)
      end
  end.

End Startup.

(* ================================================================== *)
(** ** Class-2/main.py *)
(* ================================================================== *)

Module Class2.

(** A value of type [int | str]. *)
Inductive value : Type :=
| Int (n : Z)
| Str (s : string).

(** A [dict[str, int | str]], its items in insertion order. *)
Definition dict : Type := list (string * value).

(** [d.get(key)] *)
Fixpoint lookup (key : string) (d : dict) : option value :=
  match d with
  | [] => None
  | (k, v) :: d' => if String.eqb k key then Some v else lookup key d'
  end.

(** GET /todos *)
Definition todo_app : list dict :=
  [ [("id"%string, Int 1); ("task"%string, Str "Buy groceries")];
    [("id"%string, Int 2); ("task"%string, Str "Walk the dog")];
    [("id"%string, Int 3); ("task"%string, Str "Read a book")];
    [("id"%string, Int 4); ("task"%string, Str "Write code")] ].

(** GET /tasks/{task_id} *)
Definition tasks_2 (task_id : Z) : dict :=
  if task_id <? 1 then [("error"%string, Str "")]
  else [("id"%string, Int task_id); ("task"%string, Str "Go jogging")].

End Class2.

(* ================================================================== *)
(** ** Properties of the CRUD contract *)
(* ================================================================== *)

Import Models Database Main.

(** *** The vocabulary of the specification *)

(** The records a list request is specified to return: the rows in table
    order, restricted to one status when a filter is given, without the
    first [skip] of them and cut after [lim]. *)
Definition page (skip lim : Z) (status_filter : option string) (l : list Task)
  : list Task :=
  firstn (Z.to_nat lim)
    (skipn (Z.to_nat skip)
       (match status_filter with
        | Some s => filter (fun t => String.eqb (status t) s) l
        | None => l
        end)).

(** What an attribute holds after the [setattr] loop: the value of the
    member when the body has it ([None] for [null]), the old value when the
    body leaves it out. *)
Definition assigned {A : Type} (m : member A) (old : option A) : option A :=
  match m with
  | Unset => old
  | Null => None
  | Value a => Some a
  end.

(** The field constraints of a create payload, as the data model states
    them. *)
Definition enumerated (s : string) : Prop :=
  s = "pending"%string \/ s = "in_progress"%string \/ s = "completed"%string.

Definition title_ok (body : Payload) : Prop :=
  exists s, p_title body = Value s /\ (1 <= String.length s <= 200)%nat.

Definition description_ok (body : Payload) : Prop :=
  forall s, p_description body = Value s -> (String.length s <= 2000)%nat.

Definition status_ok (body : Payload) : Prop :=
  p_status body <> Null /\ forall s, p_status body = Value s -> enumerated s.

Definition priority_ok (body : Payload) : Prop :=
  p_priority body <> Null /\ forall n, p_priority body = Value n -> 1 <= n <= 3.

Definition payload_ok (body : Payload) : Prop :=
  title_ok body /\ description_ok body /\ status_ok body /\ priority_ok body.

(** Every stored record was created at a reading the clock has already
    given, and was not updated before it was created. *)
Definition stamped (clock : nat -> Z) (w : World) : Prop :=
  forall t, In t (tasks (db w)) ->
    created_at t <= updated_at t
    /\ exists n, (n < reads w)%nat /\ created_at t = clock n.

(** The ids in use are positive, pairwise distinct and below the next id. *)
Definition keyed (dl : Dialect) (w : World) : Prop :=
  NoDup (map id (tasks (db w)))
  /\ 0 <= task_id_seq (db w)
  /\ forall i, In i (map id (tasks (db w))) -> 0 < i < next_id dl (db w).

(** A record whose title, description and priority are within the
    constraints of [TaskBase]. *)
Definition within_constraints (t : Task) : Prop :=
  (1 <= String.length (title t) <= 200)%nat
  /\ (forall d, description t = Some d -> (String.length d <= 2000)%nat)
  /\ 1 <= priority t <= 3.

(** The field constraints of an update payload: those of [TaskBase], on the
    members that carry a value. *)
Definition update_title_ok (body : Payload) : Prop :=
  forall s, p_title body = Value s -> (1 <= String.length s <= 200)%nat.

Definition update_priority_ok (body : Payload) : Prop :=
  forall n, p_priority body = Value n -> 1 <= n <= 3.

Definition update_ok (body : Payload) : Prop :=
  update_title_ok body /\ description_ok body /\ update_priority_ok body.

(** What the validation of a create payload asks of it: the constraints on
    title, description and priority, and a status that is a string when
    there is one. *)
Definition create_ok (body : Payload) : Prop :=
  title_ok body /\ description_ok body
  /\ p_status body <> Null /\ priority_ok body.

(** A signed 64-bit integer. *)
Definition in_int64 (n : Z) : Prop := - 2 ^ 63 <= n < 2 ^ 63.



(** How many records of a table have the status [s]. *)
Definition count_status (s : string) (l : list Task) : nat :=
  List.length (filter (fun t => String.eqb (status t) s) l).

Definition one_if (b : bool) : nat := if b then 1%nat else 0%nat.

(** The record [t] with another status and another time of update. *)
Definition with_status (t : Task) (s : string) (now : Z) : Task :=
  {| id := id t; title := title t; description := description t;
     status := s; priority := priority t;
     created_at := created_at t; updated_at := now |}.

(** The record [t] with another time of update. *)
Definition touched (t : Task) (now : Z) : Task :=
  {| id := id t; title := title t; description := description t;
     status := status t; priority := priority t;
     created_at := created_at t; updated_at := now |}.

(** *** Data of the scenarios of test_main.py *)

(** A clock that advances by one unit at every reading. *)
Definition ticking (n : nat) : Z := 1000 + Z.of_nat n.

(** [{"title": s}] *)
Definition only_title (s : string) : Payload :=
  {| p_title := Value s; p_description := Unset;
     p_status := Unset; p_priority := Unset |}.

(** [{"status": s}] *)
Definition only_status (s : string) : Payload :=
  {| p_title := Unset; p_description := Unset;
     p_status := Value s; p_priority := Unset |}.

(** [{"title": "Task with bad status", "status": "invalid_status"}], the
    body of [test_create_task_invalid_status]. *)
Definition bad_status : Payload :=
  {| p_title := Value "Task with bad status"%string; p_description := Unset;
     p_status := Value "invalid_status"%string; p_priority := Unset |}.

(** [{"priority": n}] *)
Definition only_priority (n : Z) : Payload :=
  {| p_title := Unset; p_description := Unset;
     p_status := Unset; p_priority := Value n |}.

(** A clock that is set back by one unit after its first reading. *)
Definition set_back (n : nat) : Z :=
  match n with
  | O => 1000
  | S _ => 999
  end.

(** [{"title": "Task", "priority": 5}] *)
Definition priority_five : Payload :=
  {| p_title := Value "Task"%string; p_description := Unset;
     p_status := Unset; p_priority := Value 5 |}.

(** Five tasks created one after the other, as in
    [test_list_tasks_pagination]. *)
Definition five_tasks : list Request :=
  [POST_tasks (only_title "Task 1"); POST_tasks (only_title "Task 2");
   POST_tasks (only_title "Task 3"); POST_tasks (only_title "Task 4");
   POST_tasks (only_title "Task 5")].

Definition task_numbered (n : Z) (name : string) (c u : Z) : Task :=
  {| id := n; title := name; description := None;
     status := "pending"%string; priority := 1;
     created_at := c; updated_at := u |}.

(** *** Lookups *)

Lemma get_id task_id d t : get task_id d = Some t -> id t = task_id.
Proof.
  unfold get. intros H. apply find_some in H. now apply Z.eqb_eq.
Qed.

Lemma get_in task_id d t : get task_id d = Some t -> In t (tasks d).
Proof.
  unfold get. intros H. now apply find_some in H.
Qed.

Lemma get_none task_id d :
  (forall t, In t (tasks d) -> id t <> task_id) -> get task_id d = None.
Proof.
  unfold get. intros H.
  destruct (find (fun t => id t =? task_id) (tasks d)) as [t|] eqn:E;
    [|reflexivity].
  apply find_some in E. destruct E as [Hin Heq].
  apply Z.eqb_eq in Heq. now apply H in Hin.
Qed.

Lemma get_unique task_id d t :
  NoDup (map id (tasks d)) -> In t (tasks d) -> id t = task_id ->
  get task_id d = Some t.
Proof.
  unfold get. intros Hnd Hin Hid.
  induction (tasks d) as [|r l IH]; [contradiction|].
  cbn in *. inversion Hnd as [|x xs Hnotin Hnd']; subst x xs.
  destruct Hin as [->|Hin].
  - rewrite Hid, Z.eqb_refl. reflexivity.
  - destruct (Z.eqb_spec (id r) task_id) as [E|_]; [|now apply IH].
    exfalso. apply Hnotin. rewrite E, <- Hid. now apply in_map.
Qed.

Lemma fits_int64_iff n : fits_int64 n = true <-> in_int64 n.
Proof.
  unfold fits_int64, in_int64.
  rewrite andb_true_iff, Z.leb_le, Z.ltb_lt. tauto.
Qed.

Lemma session_get_found dl task_id d t :
  get task_id d = Some t -> session_get dl task_id d = inr (Some t).
Proof.
  unfold session_get. now intros ->.
Qed.

Lemma session_get_missing dl task_id d :
  get task_id d = None -> in_int64 task_id ->
  session_get dl task_id d = inr None.
Proof.
  unfold session_get. intros -> H. apply fits_int64_iff in H.
  rewrite H. now destruct dl.
Qed.

Lemma session_get_unbindable task_id d :
  get task_id d = None -> ~ in_int64 task_id ->
  session_get SQLite task_id d = inl OverflowError.
Proof.
  unfold session_get. intros -> H.
  destruct (fits_int64 task_id) eqn:E; [|reflexivity].
  apply fits_int64_iff in E. contradiction.
Qed.

Lemma read_task_get dl task_id w t :
  read_task dl task_id w = Return t <-> get task_id (db w) = Some t.
Proof.
  unfold read_task, session_get.
  destruct (get task_id (db w)) as [x|].
  - split; intros H; now injection H as <-.
  - split; [|discriminate].
    destruct dl; [discriminate|]. destruct (fits_int64 task_id); discriminate.
Qed.

(** *** Rewriting and removing rows *)

Lemma find_deleted pk l :
  find (fun r => id r =? pk) (filter (fun r => negb (id r =? pk)) l) = None.
Proof.
  induction l as [|r l IH]; [reflexivity|].
  cbn. destruct (id r =? pk) eqn:E; cbn; [exact IH|].
  now rewrite E.
Qed.

Lemma find_not_deleted pk j l :
  j <> pk ->
  find (fun r => id r =? j) (filter (fun r => negb (id r =? pk)) l)
    = find (fun r => id r =? j) l.
Proof.
  intros Hne. induction l as [|r l IH]; [reflexivity|].
  cbn. destruct (id r =? pk) eqn:E; cbn.
  - apply Z.eqb_eq in E.
    destruct (Z.eqb_spec (id r) j); [congruence | exact IH].
  - destruct (id r =? j); [reflexivity | exact IH].
Qed.

Lemma find_app_fresh k (l : list Task) (t : Task) :
  (forall r, In r l -> id r <> k) -> id t = k ->
  find (fun r => id r =? k) (l ++ [t]) = Some t.
Proof.
  intros Hl Ht. induction l as [|r l IH]; cbn.
  - now rewrite Ht, Z.eqb_refl.
  - destruct (Z.eqb_spec (id r) k) as [E|_].
    + exfalso. apply (Hl r); [now left | exact E].
    + apply IH. intros r' Hr'. apply Hl. now right.
Qed.

Lemma find_app_other j (l : list Task) (t : Task) :
  j <> id t ->
  find (fun r => id r =? j) (l ++ [t]) = find (fun r => id r =? j) l.
Proof.
  intros Hne. induction l as [|r l IH]; cbn.
  - destruct (Z.eqb_spec (id t) j); [congruence | reflexivity].
  - destruct (id r =? j); [reflexivity | exact IH].
Qed.

Lemma find_app_found {A : Type} (f : A -> bool) (l l' : list A) (x : A) :
  find f l = Some x -> find f (l ++ l') = Some x.
Proof.
  induction l as [|a l IH]; [discriminate|].
  cbn. destruct (f a); [trivial | exact IH].
Qed.

Lemma find_replaced pk t' l t :
  find (fun r => id r =? pk) l = Some t ->
  id t' = pk ->
  find (fun r => id r =? pk) (map (fun r => if id r =? pk then t' else r) l)
    = Some t'.
Proof.
  intros Hfind Hid. induction l as [|r l IH]; [discriminate|].
  cbn in *. destruct (id r =? pk) eqn:E.
  - rewrite Hid, Z.eqb_refl. reflexivity.
  - rewrite E. now apply IH.
Qed.

Lemma find_replaced_other pk j t' (l : list Task) :
  j <> pk -> id t' = pk ->
  find (fun r => id r =? j) (map (fun r => if id r =? pk then t' else r) l)
  = find (fun r => id r =? j) l.
Proof.
  intros Hne Hid. induction l as [|r l IH]; [reflexivity|].
  cbn. destruct (Z.eqb_spec (id r) pk) as [E|E].
  - rewrite Hid.
    destruct (Z.eqb_spec pk j); [congruence|].
    destruct (Z.eqb_spec (id r) j); [congruence | exact IH].
  - destruct (id r =? j); [reflexivity | exact IH].
Qed.

Lemma filter_keeps_others pk (l : list Task) :
  (forall r, In r l -> id r <> pk) ->
  filter (fun r => negb (id r =? pk)) l = l.
Proof.
  induction l as [|r l IH]; intros H; [reflexivity|].
  cbn. destruct (Z.eqb_spec (id r) pk) as [E|_]; cbn.
  - exfalso. apply (H r); [now left | exact E].
  - f_equal. apply IH. intros r' Hin. apply H. now right.
Qed.

Lemma find_rewritten dl pk t' l t :
  find (fun r => id r =? pk) l = Some t ->
  id t' = pk ->
  find (fun r => id r =? pk) (rewritten dl pk t' l) = Some t'.
Proof.
  intros Hfind Hid. destruct dl; cbn [rewritten].
  - apply find_app_fresh; [|exact Hid].
    intros r Hr E. apply filter_In in Hr. destruct Hr as [_ Hr].
    apply Z.eqb_eq in E. now rewrite E in Hr.
  - now apply find_replaced with (t := t).
Qed.

Lemma find_rewritten_other dl pk j t' (l : list Task) :
  j <> pk -> id t' = pk ->
  find (fun r => id r =? j) (rewritten dl pk t' l)
  = find (fun r => id r =? j) l.
Proof.
  intros Hne Hid. destruct dl; cbn [rewritten].
  - rewrite find_app_other by congruence. now apply find_not_deleted.
  - now apply find_replaced_other.
Qed.

Lemma in_rewritten dl pk t' (l : list Task) (x : Task) :
  In x (rewritten dl pk t' l) -> x = t' \/ In x l.
Proof.
  destruct dl; cbn [rewritten]; intros Hx.
  - apply in_app_or in Hx. destruct Hx as [Hx|[<-|[]]]; [|now left].
    apply filter_In in Hx. now right.
  - apply in_map_iff in Hx. destruct Hx as (r & <- & Hr).
    destruct (id r =? pk); [now left | now right].
Qed.

Lemma ids_replaced pk t' (l : list Task) :
  id t' = pk ->
  map id (map (fun r => if id r =? pk then t' else r) l) = map id l.
Proof.
  intros Hid. induction l as [|r l IH]; [reflexivity|].
  cbn. rewrite IH. f_equal.
  destruct (Z.eqb_spec (id r) pk); congruence.
Qed.

Lemma ids_deleted pk (l : list Task) :
  map id (filter (fun r => negb (id r =? pk)) l)
  = filter (fun i => negb (i =? pk)) (map id l).
Proof.
  induction l as [|r l IH]; [reflexivity|].
  cbn. destruct (id r =? pk); cbn; now rewrite IH.
Qed.

Lemma others_of_rewritten dl pk t' (l : list Task) :
  id t' = pk ->
  filter (fun r => negb (id r =? pk)) (rewritten dl pk t' l)
  = filter (fun r => negb (id r =? pk)) l.
Proof.
  intros Hid. destruct dl; cbn [rewritten].
  - rewrite filter_app. cbn. rewrite Hid, Z.eqb_refl. cbn.
    rewrite app_nil_r. apply filter_keeps_others.
    intros r Hr E. apply filter_In in Hr. destruct Hr as [_ Hr].
    apply Z.eqb_eq in E. now rewrite E in Hr.
  - induction l as [|r l IH]; [reflexivity|].
    cbn. destruct (Z.eqb_spec (id r) pk) as [E|E].
    + rewrite Hid, Z.eqb_refl. cbn. exact IH.
    + apply Z.eqb_neq in E. rewrite E. cbn. now rewrite IH.
Qed.

Lemma delete_one pk (l : list Task) (t : Task) :
  NoDup (map id l) -> In t l -> id t = pk ->
  exists l1 l2,
    l = l1 ++ t :: l2
    /\ filter (fun r => negb (id r =? pk)) l = l1 ++ l2.
Proof.
  intros Hnd Hin Hid.
  destruct (in_split _ _ Hin) as (l1 & l2 & ->).
  exists l1, l2. split; [reflexivity|].
  rewrite map_app in Hnd. cbn in Hnd.
  apply NoDup_remove_2 in Hnd.
  rewrite filter_app. cbn. rewrite Hid, Z.eqb_refl. cbn.
  rewrite !filter_keeps_others; [reflexivity | |];
    intros r Hr E; apply Hnd; rewrite Hid, <- E; apply in_or_app;
    ((left; now apply in_map) || (right; now apply in_map)).
Qed.

(** *** The [setattr] loop and the commit of an update *)

Lemma setattr_update_data (u : TaskUpdate) (o : Instance) :
  fold_left setattr (dict_exclude_unset u) o =
  {| o_id := o_id o;
     o_title := assigned (p_title u) (o_title o);
     o_description := assigned (p_description u) (o_description o);
     o_status := assigned (p_status u) (o_status o);
     o_priority := assigned (p_priority u) (o_priority o);
     o_created_at := o_created_at o;
     o_updated_at := o_updated_at o |}.
Proof.
  destruct u as [[| |a] [| |b] [| |c] [| |d]], o; reflexivity.
Qed.

Lemma update_task_found dl clock task_id u w t :
  get task_id (db w) = Some t ->
  update_task dl clock task_id u w =
  match row task_id
          (set_updated_at (fold_left setattr (dict_exclude_unset u) (loaded t))
                          (clock (reads w))) with
  | None =>
      (Raise (DatabaseError IntegrityError),
       {| db := db w; reads := S (reads w) |})
  | Some t' =>
      (Return t',
       {| db := {| tasks := rewritten dl task_id t' (tasks (db w));
                   task_id_seq := task_id_seq (db w) |};
          reads := S (reads w) |})
  end.
Proof.
  intros Hget. unfold update_task, update, utcnow.
  rewrite (session_get_found dl _ _ _ Hget). cbn.
  destruct (row task_id _); reflexivity.
Qed.

Lemma update_task_missing dl clock task_id u w :
  get task_id (db w) = None ->
  snd (update_task dl clock task_id u w) = w.
Proof.
  intros Hget. unfold update_task, session_get. rewrite Hget.
  destruct dl; [reflexivity|]. now destruct (fits_int64 task_id).
Qed.

(** *** What validation lets through *)

Lemma check_title s :
  check title_constraints s = None <-> (1 <= String.length s <= 200)%nat.
Proof.
  unfold title_constraints, min_length, max_length. cbn [check].
  destruct (Nat.ltb_spec (String.length s) 1);
    destruct (Nat.ltb_spec 200 (String.length s));
    split; intros; try discriminate; try reflexivity; lia.
Qed.

Lemma check_description s :
  check description_constraints s = None <-> (String.length s <= 2000)%nat.
Proof.
  unfold description_constraints, max_length. cbn [check].
  destruct (Nat.ltb_spec 2000 (String.length s));
    split; intros; try discriminate; try reflexivity; lia.
Qed.

Lemma check_priority n : check priority_constraints n = None <-> 1 <= n <= 3.
Proof.
  unfold priority_constraints, ge, le. cbn [check].
  destruct (Z.ltb_spec n 1); destruct (Z.ltb_spec 3 n);
    split; intros; try discriminate; try reflexivity; lia.
Qed.

Lemma fullmatch_status s : fullmatch status_pattern s = true <-> enumerated s.
Proof.
  unfold enumerated. cbn [fullmatch status_pattern].
  rewrite !orb_true_iff, !String.eqb_eq. intuition congruence.
Qed.

Lemma title_field body :
  match required title_constraints (p_title body) with
  | inr s => p_title body = Value s /\ title_ok body
  | inl _ => ~ title_ok body
  end.
Proof.
  unfold title_ok. destruct (p_title body) as [| |s]; cbn [required].
  - intros (s & E & _). discriminate.
  - intros (s & E & _). discriminate.
  - destruct (check title_constraints s) eqn:E.
    + intros (s' & E' & H). injection E' as <-.
      apply check_title in H. congruence.
    + apply check_title in E. eauto.
Qed.

Lemma description_field body :
  match optional description_constraints (p_description body) with
  | inr d => d = assigned (p_description body) None /\ description_ok body
  | inl _ => ~ description_ok body
  end.
Proof.
  unfold description_ok. destruct (p_description body) as [| |s];
    cbn [optional assigned].
  - split; [reflexivity | discriminate].
  - split; [reflexivity | discriminate].
  - destruct (check description_constraints s) eqn:E.
    + intros H. specialize (H s eq_refl).
      apply check_description in H. congruence.
    + apply check_description in E. split; [reflexivity|].
      intros s' E'. now injection E' as <-.
Qed.

(** The status of a create payload: any string passes, the default stands
    in for a member left out, and only [null] is refused. *)
Lemma status_field body :
  match with_default "pending"%string status_constraints (p_status body) with
  | inr s => assigned (p_status body) (Some "pending"%string) = Some s
             /\ p_status body <> Null
  | inl _ => p_status body = Null
  end.
Proof.
  destruct (p_status body) as [| |s]; cbn; repeat split; discriminate.
Qed.

Lemma priority_field body :
  match with_default 1 priority_constraints (p_priority body) with
  | inr n => assigned (p_priority body) (Some 1) = Some n
             /\ 1 <= n <= 3 /\ priority_ok body
  | inl _ => ~ priority_ok body
  end.
Proof.
  unfold priority_ok. destruct (p_priority body) as [| |n];
    cbn [with_default assigned].
  - split; [reflexivity|]. split; [lia|]. split; discriminate.
  - intros [H _]. now apply H.
  - destruct (check priority_constraints n) eqn:E.
    + intros [_ H]. specialize (H n eq_refl).
      apply check_priority in H. congruence.
    + apply check_priority in E. split; [reflexivity|]. split; [exact E|].
      split; [discriminate|]. intros n' E'. now injection E' as <-.
Qed.

Lemma optional_field {A : Type} (cs : list (constraint A)) (P : A -> Prop)
    (m : member A) :
  (forall a, check cs a = None <-> P a) ->
  match optional cs m with
  | inr _ => forall a, m = Value a -> P a
  | inl _ => ~ (forall a, m = Value a -> P a)
  end.
Proof.
  intros Hcheck. destruct m as [| |a]; cbn [optional]; try discriminate.
  destruct (check cs a) eqn:E.
  - intros H. specialize (H a eq_refl). apply Hcheck in H. congruence.
  - apply Hcheck in E. intros a' E'. now injection E' as <-.
Qed.

Lemma optional_status (m : member string) :
  exists v, optional status_constraints m = inr v.
Proof.
  destruct m; cbn; eauto.
Qed.

Lemma payload_ok_create_ok body : payload_ok body -> create_ok body.
Proof.
  intros (Ht & Hd & [Hs _] & Hp). exact (conj Ht (conj Hd (conj Hs Hp))).
Qed.

Lemma TaskCreate_validate_sound body task :
  TaskCreate_validate body = inr task ->
  (1 <= String.length (c_title task) <= 200)%nat
  /\ (forall d, c_description task = Some d -> (String.length d <= 2000)%nat)
  /\ assigned (p_status body) (Some "pending"%string) = Some (c_status task)
  /\ 1 <= c_priority task <= 3.
Proof.
  pose proof (title_field body) as Ht.
  pose proof (description_field body) as Hd.
  pose proof (status_field body) as Hs.
  pose proof (priority_field body) as Hp.
  unfold TaskCreate_validate.
  destruct (required title_constraints (p_title body)) as [|t];
    destruct (optional description_constraints (p_description body)) as [|d];
    destruct (with_default "pending"%string status_constraints (p_status body))
      as [|s];
    destruct (with_default 1 priority_constraints (p_priority body)) as [|p];
    try discriminate.
  intros E. injection E as <-.
  cbn [c_title c_description c_status c_priority].
  destruct Ht as [Et (s' & Es' & Hlen)].
  destruct Hd as [Ed Hdesc].
  split; [congruence|]. split; [|tauto].
  intros d' ->. apply Hdesc.
  destruct (p_description body); cbn in Ed; congruence.
Qed.

Lemma TaskCreate_validate_complete body :
  create_ok body -> exists task, TaskCreate_validate body = inr task.
Proof.
  intros Hok.
  pose proof (title_field body) as Ht.
  pose proof (description_field body) as Hd.
  pose proof (status_field body) as Hs.
  pose proof (priority_field body) as Hp.
  unfold create_ok in Hok. unfold TaskCreate_validate.
  destruct (required title_constraints (p_title body));
    destruct (optional description_constraints (p_description body));
    destruct (with_default "pending"%string status_constraints (p_status body));
    destruct (with_default 1 priority_constraints (p_priority body));
    try (exfalso; tauto).
  eauto.
Qed.

Lemma TaskUpdate_validate_sound body u :
  TaskUpdate_validate body = inr u -> u = body /\ update_ok body.
Proof.
  pose proof (optional_field title_constraints _ (p_title body) check_title) as Ht.
  pose proof (optional_field description_constraints _ (p_description body)
                check_description) as Hd.
  pose proof (optional_field priority_constraints _ (p_priority body)
                check_priority) as Hp.
  unfold TaskUpdate_validate.
  destruct (optional title_constraints (p_title body));
    destruct (optional description_constraints (p_description body));
    destruct (optional status_constraints (p_status body));
    destruct (optional priority_constraints (p_priority body));
    try discriminate.
  intros E. injection E as <-. split; [reflexivity|].
  exact (conj Ht (conj Hd Hp)).
Qed.

Lemma TaskUpdate_validate_complete body :
  update_ok body -> TaskUpdate_validate body = inr body.
Proof.
  intros (H1 & H2 & H3).
  pose proof (optional_field title_constraints _ (p_title body) check_title) as Ht.
  pose proof (optional_field description_constraints _ (p_description body)
                check_description) as Hd.
  pose proof (optional_field priority_constraints _ (p_priority body)
                check_priority) as Hp.
  destruct (optional_status (p_status body)) as [v Hv].
  unfold TaskUpdate_validate. rewrite Hv.
  destruct (optional title_constraints (p_title body));
    destruct (optional description_constraints (p_description body));
    destruct (optional priority_constraints (p_priority body));
    try reflexivity; exfalso; tauto.
Qed.

Lemma only_status_valid s :
  TaskUpdate_validate (only_status s) = inr (only_status s).
Proof.
  reflexivity.
Qed.

Lemma only_title_ok (s : string) :
  (1 <= String.length s <= 200)%nat -> payload_ok (only_title s).
Proof.
  intros Hlen. repeat split; cbn; try discriminate.
  exists s. split; [reflexivity | exact Hlen].
Qed.

Lemma create_task_inserts dl clock task w :
  create_task dl clock task w =
  let t := {| id := next_id dl (db w);
              title := c_title task;
              description := c_description task;
              status := c_status task;
              priority := c_priority task;
              created_at := clock (reads w);
              updated_at := clock (S (reads w)) |} in
  (Return t,
   {| db := {| tasks := tasks (db w) ++ [t];
               task_id_seq := match dl with
                              | PostgreSQL => next_id dl (db w)
                              | SQLite => task_id_seq (db w)
                              end |};
      reads := S (S (reads w)) |}).
Proof.
  reflexivity.
Qed.

(** *** What a request does to the world *)

(** A POST either changes nothing or appends one record, stamped with the
    next two clock readings and keyed with the next id. *)
Lemma post_tasks_outcome dl clock body w :
  snd (post_tasks dl clock body w) = w
  \/ exists t,
       tasks (db (snd (post_tasks dl clock body w))) = tasks (db w) ++ [t]
       /\ task_id_seq (db (snd (post_tasks dl clock body w)))
          = match dl with
            | PostgreSQL => next_id dl (db w)
            | SQLite => task_id_seq (db w)
            end
       /\ reads (snd (post_tasks dl clock body w)) = S (S (reads w))
       /\ id t = next_id dl (db w)
       /\ within_constraints t
       /\ created_at t = clock (reads w)
       /\ updated_at t = clock (S (reads w)).
Proof.
  unfold post_tasks.
  destruct (TaskCreate_validate body) as [errors|task] eqn:V; [now left|].
  right. rewrite create_task_inserts. cbv zeta. eexists.
  cbn [snd db tasks task_id_seq reads id created_at updated_at].
  apply TaskCreate_validate_sound in V. destruct V as (V1 & V2 & _ & V4).
  split; [reflexivity|]. split; [reflexivity|]. split; [reflexivity|].
  split; [reflexivity|]. split; [exact (conj V1 (conj V2 V4))|].
  split; reflexivity.
Qed.

Lemma assigned_within {A : Type} (P : A -> Prop) (m : member A) (old v : A) :
  (forall a, m = Value a -> P a) -> P old ->
  assigned m (Some old) = Some v -> P v.
Proof.
  intros Hm Hold. destruct m as [| |a]; cbn; intros E;
    [injection E as <-; exact Hold | discriminate |
     injection E as <-; now apply Hm].
Qed.

(** A PUT either leaves the table as it is, or rewrites the row of one id
    as a record that keeps id and created_at and is stamped with the next
    clock reading. *)
Lemma put_task_outcome dl clock task_id body w :
  (db (snd (put_task dl clock task_id body w)) = db w
   /\ (reads w <= reads (snd (put_task dl clock task_id body w)))%nat)
  \/ exists t t',
       get task_id (db w) = Some t
       /\ tasks (db (snd (put_task dl clock task_id body w)))
          = rewritten dl task_id t' (tasks (db w))
       /\ task_id_seq (db (snd (put_task dl clock task_id body w)))
          = task_id_seq (db w)
       /\ reads (snd (put_task dl clock task_id body w)) = S (reads w)
       /\ id t' = task_id
       /\ (within_constraints t -> within_constraints t')
       /\ created_at t' = created_at t
       /\ updated_at t' = clock (reads w).
Proof.
  unfold put_task.
  destruct (TaskUpdate_validate body) as [errors|u] eqn:V;
    [left; split; [reflexivity | cbn; lia]|].
  apply TaskUpdate_validate_sound in V.
  destruct V as [-> (Hut & Hud & Hup)].
  destruct (get task_id (db w)) as [t|] eqn:G.
  - rewrite (update_task_found dl clock task_id body w t G), setattr_update_data.
    destruct (row task_id _) as [t'|] eqn:R;
      [|left; split; [reflexivity | cbn; lia]].
    right. exists t, t'. split; [reflexivity|].
    cbn [snd db tasks task_id_seq reads].
    unfold row in R. cbn in R.
    destruct (assigned (p_title body) (Some (title t))) as [vt|] eqn:Et;
      [|discriminate].
    destruct (assigned (p_status body) (Some (status t))) as [vs|] eqn:Es;
      [|discriminate].
    destruct (assigned (p_priority body) (Some (priority t))) as [vp|] eqn:Ep;
      [|discriminate].
    injection R as <-. cbn [id created_at updated_at].
    split; [reflexivity|]. split; [reflexivity|]. split; [reflexivity|].
    split; [reflexivity|]. split; [|split; reflexivity].
    intros (H1 & H2 & H3). unfold within_constraints. cbn.
    split; [now apply (assigned_within _ _ _ _ Hut H1 Et)|]. split.
    + intros d Hd. destruct (p_description body) as [| |a] eqn:Ed;
        cbn in Hd; [now apply H2 | discriminate |].
      injection Hd as <-. now apply Hud.
    + now apply (assigned_within (fun n => 1 <= n <= 3) _ _ _ Hup H3 Ep).
  - left. rewrite (update_task_missing dl clock task_id body w G).
    split; [reflexivity | lia].
Qed.

Lemma delete_task_outcome dl task_id w :
  snd (delete_task dl task_id w) = w
  \/ (tasks (db (snd (delete_task dl task_id w)))
      = filter (fun r => negb (id r =? task_id)) (tasks (db w))
      /\ task_id_seq (db (snd (delete_task dl task_id w))) = task_id_seq (db w)
      /\ reads (snd (delete_task dl task_id w)) = reads w).
Proof.
  unfold delete_task.
  destruct (session_get dl task_id (db w)) as [e|[t|]]; [left | right | left];
    cbn; auto.
Qed.

(** A property of the initial world that every request preserves holds
    after every sequence of requests. *)
Lemma run_invariant dl clock (P : World -> Prop) :
  P initial ->
  (forall w r, P w -> P (serve dl clock w r)) ->
  forall rs, P (run dl clock rs).
Proof.
  intros Hinit Hstep rs. unfold run.
  generalize initial Hinit. induction rs as [|r rs IH]; intros w Hw.
  - exact Hw.
  - cbn. apply IH. now apply Hstep.
Qed.


(** *** The primary key *)

Lemma below_max (l : list Z) (x : Z) :
  In x l -> x <= fold_right Z.max 0 l.
Proof.
  induction l as [|y l IH]; [contradiction|].
  intros [->|Hin]; cbn; [lia|]. specialize (IH Hin). lia.
Qed.

Lemma NoDup_snoc (l : list Z) (x : Z) :
  NoDup l -> ~ In x l -> NoDup (l ++ [x]).
Proof.
  induction 1 as [|y l Hy Hnd IH]; intros Hx; cbn.
  - constructor; [intros [] | constructor].
  - constructor.
    + intros Hin. apply in_app_or in Hin. destruct Hin as [Hin|[->|[]]].
      * now apply Hy.
      * apply Hx. now left.
    + apply IH. intros Hin. apply Hx. now right.
Qed.

Lemma next_id_above dl d :
  0 <= task_id_seq d ->
  0 < next_id dl d
  /\ (dl = SQLite -> forall i, In i (map id (tasks d)) -> i < next_id dl d).
Proof.
  intros Hseq. destruct dl; cbn.
  - split; [lia | discriminate].
  - assert (0 <= fold_right Z.max 0 (map id (tasks d))).
    { induction (map id (tasks d)); cbn; lia. }
    split; [lia|]. intros _ i Hin. apply below_max in Hin. lia.
Qed.

Lemma ids_rewritten dl pk t' (l : list Task) :
  id t' = pk -> In pk (map id l) ->
  forall i, In i (map id (rewritten dl pk t' l)) <-> In i (map id l).
Proof.
  intros Hid Hpk i. destruct dl; cbn [rewritten].
  - rewrite map_app, in_app_iff, ids_deleted, filter_In. cbn [map In].
    rewrite Hid.
    split.
    + intros [[H _]|[<-|[]]]; assumption.
    + intros H. destruct (Z.eqb_spec i pk) as [->|Hne]; [right; now left|].
      left. split; [exact H | reflexivity].
  - now rewrite ids_replaced.
Qed.

Lemma NoDup_rewritten dl pk t' (l : list Task) :
  id t' = pk -> NoDup (map id l) -> NoDup (map id (rewritten dl pk t' l)).
Proof.
  intros Hid Hnd. destruct dl; cbn [rewritten].
  - rewrite map_app, ids_deleted. cbn. apply NoDup_snoc.
    + now apply NoDup_filter.
    + rewrite Hid. intros H. apply filter_In in H. destruct H as [_ H].
      now rewrite Z.eqb_refl in H.
  - now rewrite ids_replaced.
Qed.

Lemma serve_keyed dl clock w r : keyed dl w -> keyed dl (serve dl clock w r).
Proof.
  intros (Hnd & Hseq & Hlt).
  destruct r as [body| | |task_id body|task_id| |]; cbn [serve];
    try (repeat split; assumption || apply Hlt; assumption).
  - destruct (post_tasks_outcome dl clock body w)
      as [->|(t & Ht & Hs & _ & Hid & _)];
      [repeat split; assumption || apply Hlt; assumption|].
    destruct (next_id_above dl (db w) Hseq) as [Hpos _].
    assert (Hseq' : 0 <= task_id_seq (db (snd (post_tasks dl clock body w)))).
    { rewrite Hs. destruct dl; lia. }
    unfold keyed. rewrite Ht, map_app. cbn [map]. rewrite Hid.
    split; [|split; [exact Hseq'|]].
    + apply NoDup_snoc; [exact Hnd|]. intros Hin. apply Hlt in Hin. lia.
    + intros i Hin.
      assert (Hi : 0 < i <= next_id dl (db w)).
      { apply in_app_or in Hin. destruct Hin as [Hin|[<-|[]]]; [|lia].
        apply Hlt in Hin. lia. }
      split; [lia|].
      destruct dl.
      * unfold next_id at 1. rewrite Hs. lia.
      * destruct (next_id_above SQLite _ Hseq') as [_ Hmax].
        apply (Hmax eq_refl). rewrite Ht, map_app. cbn [map]. now rewrite Hid.
  - destruct (put_task_outcome dl clock task_id body w)
      as [[E _]|(t & t' & Hget & Ht & Hs & _ & Hid & _)].
    + unfold keyed. rewrite E. repeat split; assumption || apply Hlt; assumption.
    + assert (Hpk : In task_id (map id (tasks (db w)))).
      { rewrite <- (get_id _ _ _ Hget). apply in_map.
        now apply get_in with task_id. }
      assert (Hseq' : 0 <= task_id_seq
                             (db (snd (put_task dl clock task_id body w)))).
      { now rewrite Hs. }
      unfold keyed. rewrite Ht.
      split; [now apply NoDup_rewritten|]. split; [exact Hseq'|].
      intros i Hin. apply (ids_rewritten dl _ _ _ Hid Hpk) in Hin.
      split; [now apply Hlt|].
      destruct dl.
      * unfold next_id. rewrite Hs. apply Hlt in Hin. cbn in Hin. lia.
      * destruct (next_id_above SQLite _ Hseq') as [_ Hmax].
        apply (Hmax eq_refl). rewrite Ht.
        now apply (ids_rewritten SQLite _ _ _ Hid Hpk).
  - destruct (delete_task_outcome dl task_id w) as [->|(Ht & Hs & _)];
      [repeat split; assumption || apply Hlt; assumption|].
    assert (Hseq' : 0 <= task_id_seq (db (snd (delete_task dl task_id w)))).
    { now rewrite Hs. }
    unfold keyed. rewrite Ht, ids_deleted.
    split; [now apply NoDup_filter|]. split; [exact Hseq'|].
    intros i Hin.
    assert (Hold : In i (map id (tasks (db w)))).
    { now apply filter_In in Hin. }
    split; [now apply Hlt|].
    destruct dl.
    + unfold next_id. rewrite Hs. apply Hlt in Hold. cbn in Hold. lia.
    + destruct (next_id_above SQLite _ Hseq') as [_ Hmax].
      apply (Hmax eq_refl). now rewrite Ht, ids_deleted.
Qed.

Lemma run_keyed dl clock rs : keyed dl (run dl clock rs).
Proof.
  apply (run_invariant dl clock (keyed dl)).
  - unfold keyed. cbn. split; [constructor|]. split; [lia | contradiction].
  - intros w r. apply serve_keyed.
Qed.

(** After any sequence of requests the ids of the stored records are
    positive and pairwise distinct. *)
Lemma run_primary_key dl clock rs :
  NoDup (map id (tasks (db (run dl clock rs))))
  /\ forall t, In t (tasks (db (run dl clock rs))) -> 0 < id t.
Proof.
  destruct (run_keyed dl clock rs) as (Hnd & _ & Hlt). split; [exact Hnd|].
  intros t Hin. apply Hlt. now apply in_map.
Qed.

(** *** Creation order *)








(** *** Timestamps *)

Lemma serve_stamped dl clock :
  (forall n m, (n <= m)%nat -> clock n <= clock m) ->
  forall w r, stamped clock w -> stamped clock (serve dl clock w r).
Proof.
  intros Hmono w r Hw.
  destruct r as [body| | |task_id body|task_id| |]; cbn [serve]; try exact Hw.
  - destruct (post_tasks_outcome dl clock body w)
      as [->|(t & Ht & _ & Hr & _ & _ & Hc & Hu)]; [exact Hw|].
    intros x Hx. rewrite Ht in Hx. rewrite Hr.
    apply in_app_or in Hx. destruct Hx as [Hx|[<-|[]]].
    + destruct (Hw x Hx) as (Hle & n & Hn & E).
      split; [exact Hle|]. exists n. split; [lia | exact E].
    + split.
      * rewrite Hc, Hu. apply Hmono. lia.
      * exists (reads w). split; [lia | exact Hc].
  - destruct (put_task_outcome dl clock task_id body w)
      as [[E Hr]|(t & t' & Hget & Ht & _ & Hr & _ & _ & Hc & Hu)].
    + intros x Hx. rewrite E in Hx.
      destruct (Hw x Hx) as (Hle & n & Hn & En).
      split; [exact Hle|]. exists n. split; [lia | exact En].
    + intros x Hx. rewrite Ht in Hx. rewrite Hr.
      apply in_rewritten in Hx. destruct Hx as [->|Hin].
      * destruct (Hw t (get_in _ _ _ Hget)) as (_ & n & Hn & En).
        split.
        -- rewrite Hu, Hc, En. apply Hmono. lia.
        -- exists n. split; [lia | congruence].
      * destruct (Hw x Hin) as (Hle & n & Hn & En).
        split; [exact Hle|]. exists n. split; [lia | exact En].
  - destruct (delete_task_outcome dl task_id w) as [->|(Ht & _ & Hr)]; [exact Hw|].
    intros x Hx. rewrite Ht in Hx. rewrite Hr.
    apply filter_In in Hx. now apply Hw.
  - intros x Hx. cbn in *.
    destruct (Hw x Hx) as (Hle & n & Hn & En).
    split; [exact Hle|]. exists n. split; [lia | exact En].
Qed.

(* ================================================================== *)
(** ** The contract, operation by operation *)
(* ================================================================== *)

(** *** Listing: GET /tasks *)

Lemma exec_in_range dl st d :
  negative (st_offset st) = false ->
  negative (st_limit st) = false ->
  unbindable (st_offset st) = false ->
  unbindable (st_limit st) = false ->
  exec dl st d =
  inr (up_to_limit (st_limit st)
         (after_offset (st_offset st) (selected (st_where st) (tasks d)))).
Proof.
  intros Ho Hl Uo Ul. unfold exec. rewrite Ho, Hl, Uo, Ul. now destruct dl.
Qed.

Lemma list_tasks_nonnegative dl skip lim status_filter w :
  0 <= skip < 2 ^ 63 -> 0 <= lim < 2 ^ 63 ->
  list_tasks dl skip lim status_filter w =
  Return (page skip lim
            (match status_filter with
             | Some s => if String.eqb s "" then None else Some s
             | None => None
             end) (tasks (db w))).
Proof.
  intros Hs Hl. unfold list_tasks, session_exec.
  assert (Hs' : (skip <? 0) = false) by (apply Z.ltb_ge; lia).
  assert (Hl' : (lim <? 0) = false) by (apply Z.ltb_ge; lia).
  assert (Fs : fits_int64 skip = true) by (apply fits_int64_iff; red; lia).
  assert (Fl : fits_int64 lim = true) by (apply fits_int64_iff; red; lia).
  rewrite exec_in_range by (destruct status_filter as [s|];
    [destruct (String.eqb s "")|]; cbn; try rewrite Fs; try rewrite Fl;
    try assumption; reflexivity).
  unfold page.
  destruct status_filter as [s|]; [destruct (String.eqb s "")|];
    cbn; rewrite Hl'; reflexivity.
Qed.

Lemma list_tasks_unbindable dl skip lim status_filter w :
  ~ in_int64 skip \/ ~ in_int64 lim ->
  list_tasks dl skip lim status_filter w
  = Raise (DatabaseError match dl with
                         | PostgreSQL => DataError
                         | SQLite => OverflowError
                         end).
Proof.
  intros H.
  assert (E : unbindable (Some skip) || unbindable (Some lim) = true).
  { cbn. destruct (fits_int64 skip) eqn:Fs; [|reflexivity].
    destruct (fits_int64 lim) eqn:Fl; [|reflexivity].
    apply fits_int64_iff in Fs, Fl. tauto. }
  unfold list_tasks, session_exec, exec.
  destruct status_filter as [s|]; [destruct (String.eqb s "")|];
    cbn [st_offset st_limit offset limit where_status select_Task];
    rewrite E; now destruct dl.
Qed.


(** C10.  A status filter that is supplied as the empty string is the same
    request as one without a filter, whatever the store, [skip] and
    [limit]; with [skip] 0 and the size of the table as [limit] it returns
    the whole table. *)
Theorem list_tasks_empty_filter_is_no_filter :
  forall (dl : Dialect) (skip lim : Z) (w : World),
    list_tasks dl skip lim (Some ""%string) w = list_tasks dl skip lim None w
    /\ (Z.of_nat (List.length (tasks (db w))) < 2 ^ 63 ->
        list_tasks dl 0 (Z.of_nat (List.length (tasks (db w)))) (Some ""%string) w
        = Return (tasks (db w))).
Proof.
  intros. split.
  - unfold list_tasks. rewrite String.eqb_refl. reflexivity.
  - intros Hsize. rewrite list_tasks_nonnegative by lia.
    cbn. unfold page. cbn. rewrite Nat2Z.id. now rewrite firstn_all.
Qed.

(** C5, as the code has it.  The handler checks none of its parameters.
    With [skip] and [limit] from 0 to 2^63 - 1 every request is executed and
    answered with a success, a [limit] of 0 and a status filter outside the
    enumeration included: the first gives the empty list, the second the
    page of the rows whose status is that string.  What lies outside that
    range reaches the storage engine unchecked: a negative [skip] or
    [limit] of 64 bits is executed by SQLite and refused by PostgreSQL, and
    a [skip] or [limit] outside 64 bits is refused by both. *)
Theorem list_tasks_checks_no_parameter :
  forall (dl : Dialect) (skip lim : Z) (status_filter : option string) (w : World),
    (0 <= skip < 2 ^ 63 -> 0 <= lim < 2 ^ 63 ->
       exists l, list_tasks dl skip lim status_filter w = Return l
         /\ (lim = 0 -> l = [])
         /\ (forall s, status_filter = Some s -> s <> ""%string ->
               l = page skip lim (Some s) (tasks (db w)))
         /\ (status_filter = None \/ status_filter = Some ""%string ->
               l = page skip lim None (tasks (db w))))
    /\ (in_int64 skip -> in_int64 lim ->
        exists l, list_tasks SQLite skip lim status_filter w = Return l)
    /\ (in_int64 skip -> in_int64 lim -> skip < 0 \/ lim < 0 ->
        list_tasks PostgreSQL skip lim status_filter w
          = Raise (DatabaseError DataError))
    /\ (~ in_int64 skip \/ ~ in_int64 lim ->
        list_tasks PostgreSQL skip lim status_filter w
          = Raise (DatabaseError DataError)
        /\ list_tasks SQLite skip lim status_filter w
          = Raise (DatabaseError OverflowError)).
Proof.
  intros dl skip lim status_filter w. split; [|split; [|split]].
  - intros Hs Hl. eexists. split; [apply list_tasks_nonnegative; assumption|].
    split; [|split].
    + intros ->. unfold page. reflexivity.
    + intros s -> Hne. destruct (String.eqb_spec s ""); [congruence|].
      reflexivity.
    + intros [->| ->]; reflexivity.
  - intros Fs Fl. apply fits_int64_iff in Fs, Fl.
    unfold list_tasks, session_exec, exec.
    destruct status_filter as [s|]; [destruct (String.eqb s "")|];
      cbn [st_offset st_limit offset limit where_status select_Task unbindable];
      rewrite Fs, Fl; cbn; eexists; reflexivity.
  - intros Fs Fl Hneg. apply fits_int64_iff in Fs, Fl.
    unfold list_tasks, session_exec, exec.
    assert (E : negative (Some skip) || negative (Some lim) = true).
    { cbn. destruct Hneg as [H|H]; apply Z.ltb_lt in H; rewrite H;
        [reflexivity | apply orb_true_r]. }
    destruct status_filter as [s|]; [destruct (String.eqb s "")|];
      cbn [st_offset st_limit offset limit where_status select_Task unbindable];
      rewrite Fs, Fl; cbn [negb orb]; rewrite E; reflexivity.
  - intros H. split; now rewrite list_tasks_unbindable.
Qed.

(** *** Updating: PUT /tasks/{task_id} *)

(** C1.  For every stored task [t] and every update payload [u], the update
    of [t]'s id with [u] succeeds unless [u] sends [null] for a NOT NULL
    column, and a successful update stores and returns a record in which
    each of title, description, status and priority is the payload's value
    when the payload has the field and [t]'s value when it has not; id and
    created_at are those of [t]; updated_at is the clock reading of the
    update, also when the payload has no field at all. *)
Theorem update_task_merges_payload :
  forall (dl : Dialect) (clock : nat -> Z) (task_id : Z) (u : TaskUpdate)
         (w : World) (t : Task),
    get task_id (db w) = Some t ->
    (p_title u <> Null -> p_status u <> Null -> p_priority u <> Null ->
       exists t' w', update_task dl clock task_id u w = (Return t', w'))
    /\ (forall t' w', update_task dl clock task_id u w = (Return t', w') ->
          get task_id (db w') = Some t'
          /\ ((forall v, p_title u = Value v -> title t' = v)
              /\ (p_title u = Unset -> title t' = title t))
          /\ ((forall v, p_description u = Value v -> description t' = Some v)
              /\ (p_description u = Null -> description t' = None)
              /\ (p_description u = Unset -> description t' = description t))
          /\ ((forall v, p_status u = Value v -> status t' = v)
              /\ (p_status u = Unset -> status t' = status t))
          /\ ((forall v, p_priority u = Value v -> priority t' = v)
              /\ (p_priority u = Unset -> priority t' = priority t))
          /\ id t' = id t
          /\ created_at t' = created_at t
          /\ updated_at t' = clock (reads w)).
Proof.
  intros dl clock task_id u w t Hget.
  pose proof (get_id _ _ _ Hget) as Hid.
  rewrite (update_task_found dl clock task_id u w t Hget), setattr_update_data.
  split.
  - intros Ht Hs Hp.
    destruct u as [[| |a] b [| |c] [| |d]]; cbn in *; try congruence;
      eauto.
  - intros t' w' Hupd.
    assert (Hfind : forall r, id r = task_id ->
              find (fun x => id x =? task_id)
                   (rewritten dl task_id r (tasks (db w)))
              = Some r).
    { intros r Hr. now apply find_rewritten with (t := t). }
    destruct u as [[| |a] [| |b] [| |c] [| |d]]; cbn in Hupd;
      try discriminate; injection Hupd as <- <-; unfold get; cbn;
      (split; [now apply Hfind|]);
      repeat split; intros; congruence.
Qed.

(** *** Unknown ids *)

Lemma length_append (s1 s2 : string) :
  String.length (s1 ++ s2) = (String.length s1 + String.length s2)%nat.
Proof.
  induction s1 as [|c s1 IH]; cbn; [reflexivity | now rewrite IH].
Qed.

Lemma append_cancel_r (s1 s2 t : string) :
  (s1 ++ t)%string = (s2 ++ t)%string -> s1 = s2.
Proof.
  revert s2. induction s1 as [|c s1 IH]; intros [|c2 s2] H; cbn in H.
  - reflexivity.
  - exfalso. apply (f_equal String.length) in H. cbn in H.
    rewrite length_append in H. lia.
  - exfalso. apply (f_equal String.length) in H. cbn in H.
    rewrite length_append in H. lia.
  - injection H as -> H. f_equal. now apply IH.
Qed.

Lemma to_int_not_nil (n : Z) :
  NilZero.int_of_string (NilZero.string_of_int (Z.to_int n)) = Some (Z.to_int n).
Proof.
  apply NilZero.isi; intros E; pose proof (f_equal Z.of_int E) as E';
    rewrite DecimalZ.of_to in E'; cbn in E'; subst n; discriminate.
Qed.

Lemma str_inj (n m : Z) : str n = str m -> n = m.
Proof.
  unfold str. intros H. apply DecimalZ.to_int_inj.
  pose proof (to_int_not_nil n) as Hn.
  pose proof (to_int_not_nil m) as Hm.
  rewrite H in Hn. rewrite Hn in Hm. now injection Hm.
Qed.

Lemma not_found_detail_inj (n m : Z) :
  not_found_detail n = not_found_detail m -> n = m.
Proof.
  unfold not_found_detail. intros H.
  apply str_inj. cbn in H.
  repeat (injection H as H).
  now apply append_cancel_r in H.
Qed.

(** C6, as the code has it.  For every id that no stored record has and
    that is a signed 64-bit integer, reading, updating (with any payload)
    and deleting that id each raise the 404 exception whose detail is
    "Task with ID <id> not found", a message that determines the id, and
    leave the world as it was.  An id outside 64 bits is not looked up by
    SQLite: the three handlers end with the driver's OverflowError, a 500,
    and leave the world as it was. *)
Theorem unknown_id_is_not_found :
  forall (dl : Dialect) (clock : nat -> Z) (task_id : Z) (u : TaskUpdate)
         (w : World),
    (forall t, In t (tasks (db w)) -> id t <> task_id) ->
    (in_int64 task_id ->
       read_task dl task_id w
         = Raise (HTTPException 404 (not_found_detail task_id))
       /\ update_task dl clock task_id u w
         = (Raise (HTTPException 404 (not_found_detail task_id)), w)
       /\ delete_task dl task_id w
         = (Raise (HTTPException 404 (not_found_detail task_id)), w)
       /\ (forall other, not_found_detail other = not_found_detail task_id ->
             other = task_id))
    /\ (~ in_int64 task_id ->
        read_task SQLite task_id w = Raise (DatabaseError OverflowError)
        /\ update_task SQLite clock task_id u w
           = (Raise (DatabaseError OverflowError), w)
        /\ delete_task SQLite task_id w
           = (Raise (DatabaseError OverflowError), w)
        /\ status_code 200 (read_task SQLite task_id w) = 500).
Proof.
  intros dl clock task_id u w Hnone.
  apply get_none in Hnone. split.
  - intros Hrange.
    unfold read_task, update_task, delete_task.
    rewrite (session_get_missing dl _ _ Hnone Hrange).
    repeat split. intros other. apply not_found_detail_inj.
  - intros Hrange.
    unfold read_task, update_task, delete_task.
    rewrite (session_get_unbindable _ _ Hnone Hrange). repeat split.
Qed.

(** *** Deleting: DELETE /tasks/{task_id} *)

(** C7.  In a store whose primary key is unique and that holds a record [t]
    with id [task_id], deleting [task_id] succeeds and removes that one row
    from the table, the rows before and after it staying as they are and in
    their order; no row has the id afterwards and reading it (a key of 64
    bits, as every key of the table is) is a 404, and every other id reads
    exactly as before, with all seven stored fields. *)
Theorem delete_task_removes_one_record :
  forall (dl : Dialect) (task_id : Z) (w : World) (t : Task),
    NoDup (map id (tasks (db w))) ->
    In t (tasks (db w)) -> id t = task_id ->
    exists w',
      delete_task dl task_id w = (Return tt, w')
      /\ get task_id (db w') = None
      /\ (in_int64 task_id ->
          read_task dl task_id w'
            = Raise (HTTPException 404 (not_found_detail task_id)))
      /\ (forall other, other <> task_id ->
            read_task dl other w' = read_task dl other w)
      /\ (exists l1 l2, tasks (db w) = l1 ++ t :: l2
                        /\ tasks (db w') = l1 ++ l2).
Proof.
  intros dl task_id w t Hnd Hin Hid.
  unfold delete_task.
  rewrite (session_get_found dl _ _ _ (get_unique task_id (db w) t Hnd Hin Hid)).
  eexists. split; [reflexivity|].
  assert (Hgone : get task_id (delete task_id (db w)) = None).
  { unfold get, delete. cbn. apply find_deleted. }
  split; [exact Hgone|]. split; [|split].
  - intros Hrange. unfold read_task. cbn [db].
    now rewrite (session_get_missing dl _ _ Hgone Hrange).
  - intros other Hne. unfold read_task, session_get, get, delete. cbn.
    now rewrite find_not_deleted.
  - cbn. now apply delete_one.
Qed.

(** *** Creating: POST /tasks *)

(** C4, at the failing input.  The body of [test_create_task_invalid_status]
    has a status that the declared pattern does not match, yet it passes
    the validation of [TaskCreate]: the request is answered 201 and the
    record is stored with that status, where the test expects a 422 and no
    record. *)
Theorem create_accepts_status_outside_enumeration :
  forall (dl : Dialect) (clock : nat -> Z),
    fullmatch status_pattern "invalid_status" = false
    /\ ~ enumerated "invalid_status"
    /\ exists t w',
         post_tasks dl clock bad_status initial = (Return t, w')
         /\ status_code 201 (fst (post_tasks dl clock bad_status initial)) = 201
         /\ status t = "invalid_status"%string
         /\ tasks (db w') = [t]
         /\ read_task dl 1 w' = Return t.
Proof.
  intros dl clock. split; [reflexivity|]. split.
  - intros [H|[H|H]]; discriminate.
  - eexists. eexists. split; [reflexivity|].
    destruct dl; repeat split.
Qed.

(** C8.  Creating a task from a payload that supplies only a (valid) title
    succeeds and appends a record that has this title, status "pending",
    priority 1 and no description. *)
Theorem create_with_title_only_uses_defaults :
  forall (dl : Dialect) (clock : nat -> Z) (s : string) (w : World),
    (1 <= String.length s <= 200)%nat ->
    exists t w',
      post_tasks dl clock
        {| p_title := Value s; p_description := Unset;
           p_status := Unset; p_priority := Unset |} w = (Return t, w')
      /\ tasks (db w') = tasks (db w) ++ [t]
      /\ title t = s
      /\ status t = "pending"%string
      /\ priority t = 1
      /\ description t = None.
Proof.
  intros dl clock s w Hlen.
  unfold post_tasks, TaskCreate_validate. cbn [p_title p_description p_status
    p_priority required optional with_default].
  apply check_title in Hlen. rewrite Hlen.
  rewrite create_task_inserts. cbv zeta.
  eexists. eexists. split; [reflexivity|]. cbn. repeat split.
Qed.

(** *** Statistics: GET /stats *)

Lemma get_stats_counts dl w :
  get_stats dl w =
  Return {| total := List.length (tasks (db w));
            pending := List.length
              (filter (fun t => String.eqb (status t) "pending") (tasks (db w)));
            in_progress := List.length
              (filter (fun t => String.eqb (status t) "in_progress") (tasks (db w)));
            completed := List.length
              (filter (fun t => String.eqb (status t) "completed") (tasks (db w))) |}.
Proof.
  destruct dl; reflexivity.
Qed.

(** C2, at the failing input.  After the one request of
    [test_create_task_invalid_status], which the program accepts, the store
    holds one record and the statistics count it in the total and under no
    status: pending + in_progress + completed is 0 and total is 1.  The
    same store is reached by a PUT of that status on a stored record. *)
Theorem stats_miss_status_outside_enumeration :
  forall (dl : Dialect) (clock : nat -> Z),
    get_stats dl (run dl clock [POST_tasks bad_status])
      = Return {| total := 1; pending := 0; in_progress := 0; completed := 0 |}
    /\ get_stats dl
         (run dl clock [POST_tasks (only_title "Task");
                        PUT_task 1 (only_status "invalid")])
       = Return {| total := 1; pending := 0; in_progress := 0; completed := 0 |}.
Proof.
  intros dl clock. rewrite !get_stats_counts. destruct dl; split; reflexivity.
Qed.

(** *** Timestamps *)

(** C9, as the code has it.  When the clock never runs backwards, every
    record of every store reached by a sequence of requests has
    created_at <= updated_at: a creation stamps created_at and then
    updated_at, and a successful update sets updated_at to a later reading
    and leaves created_at alone. *)
Theorem updated_at_not_before_created_at :
  forall (dl : Dialect) (clock : nat -> Z) (rs : list Request),
    (forall n m, (n <= m)%nat -> clock n <= clock m) ->
    forall t, In t (tasks (db (run dl clock rs))) ->
      created_at t <= updated_at t.
Proof.
  intros dl clock rs Hmono t Hin.
  assert (H : stamped clock (run dl clock rs)).
  { apply (run_invariant dl clock (stamped clock)).
    - intros x [].
    - intros w r. now apply serve_stamped. }
  now apply H.
Qed.

(* ================================================================== *)
(** ** Further properties of the handlers *)
(* ================================================================== *)

(** *** Pages *)

Lemma firstn_add {A : Type} (n m : nat) (l : list A) :
  firstn (n + m) l = firstn n l ++ firstn m (skipn n l).
Proof.
  revert l. induction n as [|n IH]; intros l; [reflexivity|].
  destruct l as [|x l]; cbn.
  - now rewrite firstn_nil.
  - now rewrite IH.
Qed.

Lemma page_add skip n m sf (l : list Task) :
  0 <= skip -> 0 <= n -> 0 <= m ->
  page skip (n + m) sf l = page skip n sf l ++ page (skip + n) m sf l.
Proof.
  intros Hs Hn Hm. unfold page.
  rewrite !Z2Nat.inj_add by assumption.
  rewrite firstn_add. f_equal. f_equal.
  rewrite Nat.add_comm. apply skipn_skipn.
Qed.

(** X10.  Consecutive pages fit together: for non-negative [skip], [n] and
    [m] with [skip + n] and [n + m] below 2^63, the page of [n] records
    after [skip] followed by the page of [m] records after [skip + n] is
    the page of [n + m] records after [skip], under the same status filter;
    no record is lost or repeated at the seam. *)
Theorem consecutive_pages_concatenate :
  forall (dl : Dialect) (skip n m : Z) (status_filter : option string) (w : World),
    0 <= skip -> 0 <= n -> 0 <= m ->
    skip + n < 2 ^ 63 -> n + m < 2 ^ 63 ->
    exists l1 l2,
      list_tasks dl skip n status_filter w = Return l1
      /\ list_tasks dl (skip + n) m status_filter w = Return l2
      /\ list_tasks dl skip (n + m) status_filter w = Return (l1 ++ l2).
Proof.
  intros dl skip n m sf w Hs Hn Hm Hsn Hnm.
  rewrite !list_tasks_nonnegative by lia.
  eexists. eexists. split; [reflexivity|]. split; [reflexivity|].
  f_equal. now apply page_add.
Qed.

(** *** Creation order *)


(** *** Validation of an update *)

(** X5.  An update payload is validated before the id is looked up.  When
    its title, description or priority carries a value that breaks its
    constraint, the answer is 422 whatever the id, the validation error
    names exactly the offending fields, and the world is left as it was,
    the clock unread; otherwise the request is the handler's, whatever the
    status it carries and [null] members included. *)
Theorem update_validates_payload :
  forall (dl : Dialect) (clock : nat -> Z) (task_id : Z) (body : Payload)
         (w : World),
    (update_ok body ->
       put_task dl clock task_id body w = update_task dl clock task_id body w)
    /\ (~ update_ok body ->
        exists errors,
          put_task dl clock task_id body w
            = (Raise (RequestValidationError errors), w)
          /\ status_code 200 (fst (put_task dl clock task_id body w)) = 422
          /\ errors <> []
          /\ (forall name,
                In name (map loc errors) <->
                (name = "title"%string /\ ~ update_title_ok body)
                \/ (name = "description"%string /\ ~ description_ok body)
                \/ (name = "priority"%string /\ ~ update_priority_ok body))).
Proof.
  intros dl clock task_id body w.
  pose proof (optional_field title_constraints _ (p_title body) check_title) as Ht.
  pose proof (optional_field description_constraints _ (p_description body)
                check_description) as Hd.
  pose proof (optional_field priority_constraints _ (p_priority body)
                check_priority) as Hp.
  destruct (optional_status (p_status body)) as [v Hv].
  unfold put_task, TaskUpdate_validate, update_ok, update_title_ok,
    description_ok, update_priority_ok.
  rewrite Hv.
  destruct (optional title_constraints (p_title body)) as [et|t];
    destruct (optional description_constraints (p_description body)) as [ed|d];
    destruct (optional priority_constraints (p_priority body)) as [ep|p];
    (split; [intros Hok | intros Hbad]);
    try (exfalso; tauto);
    try reflexivity;
    (eexists; split; [reflexivity|]; split; [reflexivity|];
     split; [discriminate|];
     intros name; cbn [errors_at app map loc In];
     split;
     [ intros Hin; repeat (destruct Hin as [<-|Hin]; [tauto|]); contradiction
     | intros [[-> H]|[[-> H]|[-> H]]]; tauto ]).
Qed.

(** *** Validation of a create *)

(** X17.  A create payload is accepted exactly when its title is present
    with 1 to 200 characters, its description has at most 2000, its
    priority is absent or from 1 to 3, and its status is not [null]: any
    string is taken as a status.  A payload that is not accepted is
    answered 422 with a validation error that names exactly the offending
    fields, and the world is left as it was. *)
Theorem create_validates_title_description_priority :
  forall (dl : Dialect) (clock : nat -> Z) (body : Payload) (w : World),
    (create_ok body ->
       exists t w',
         post_tasks dl clock body w = (Return t, w')
         /\ tasks (db w') = tasks (db w) ++ [t]
         /\ Some (status t) = assigned (p_status body) (Some "pending"%string))
    /\ (~ create_ok body ->
       exists errors,
         post_tasks dl clock body w = (Raise (RequestValidationError errors), w)
         /\ status_code 201 (fst (post_tasks dl clock body w)) = 422
         /\ errors <> []
         /\ (forall name,
               In name (map loc errors) <->
               (name = "title"%string /\ ~ title_ok body)
               \/ (name = "description"%string /\ ~ description_ok body)
               \/ (name = "status"%string /\ p_status body = Null)
               \/ (name = "priority"%string /\ ~ priority_ok body))).
Proof.
  intros dl clock body w.
  pose proof (title_field body) as Ht.
  pose proof (description_field body) as Hd.
  pose proof (status_field body) as Hs.
  pose proof (priority_field body) as Hp.
  unfold post_tasks, TaskCreate_validate, create_ok.
  destruct (required title_constraints (p_title body)) as [et|t];
    destruct (optional description_constraints (p_description body)) as [ed|d];
    destruct (with_default "pending"%string status_constraints (p_status body))
      as [es|s];
    destruct (with_default 1 priority_constraints (p_priority body)) as [ep|p];
    (split; [intros Hok | intros Hbad]);
    try (exfalso; tauto);
    try (rewrite create_task_inserts; cbv zeta; eexists; eexists;
         split; [reflexivity|]; split; [reflexivity|];
         cbn; symmetry; apply Hs);
    (eexists; split; [reflexivity|]; split; [reflexivity|];
     split; [discriminate|];
     intros name; cbn [errors_at app map loc In];
     split;
     [ intros Hin; repeat (destruct Hin as [<-|Hin]; [tauto|]); contradiction
     | intros [[-> H]|[[-> H]|[[-> H]|[-> H]]]]; tauto ]).
Qed.

(** *** Creating, then reading *)

(** X1.  In the store reached by any sequence of requests, a valid create
    payload is accepted and the new record gets a positive id that no
    stored record has (reading that id, a key of 64 bits, was a 404 just
    before); reading the id afterwards returns exactly the record the
    create returned, and every other id reads as before. *)
Theorem create_then_read :
  forall (dl : Dialect) (clock : nat -> Z) (rs : list Request) (body : Payload),
    payload_ok body ->
    exists t w',
      post_tasks dl clock body (run dl clock rs) = (Return t, w')
      /\ w' = run dl clock (rs ++ [POST_tasks body])
      /\ 0 < id t
      /\ get (id t) (db (run dl clock rs)) = None
      /\ (in_int64 (id t) ->
          read_task dl (id t) (run dl clock rs)
          = Raise (HTTPException 404 (not_found_detail (id t))))
      /\ read_task dl (id t) w' = Return t
      /\ (forall other, other <> id t ->
            read_task dl other w' = read_task dl other (run dl clock rs)).
Proof.
  intros dl clock rs body Hok.
  destruct (TaskCreate_validate_complete body (payload_ok_create_ok body Hok))
    as [task V].
  pose proof (run_keyed dl clock rs) as (Hnd & Hseq & Hlt).
  set (w := run dl clock rs) in *.
  assert (E : post_tasks dl clock body w = create_task dl clock task w).
  { unfold post_tasks. now rewrite V. }
  rewrite create_task_inserts in E. cbv zeta in E.
  eexists. eexists. split; [exact E|].
  assert (Hfresh : forall r, In r (tasks (db w)) -> id r <> next_id dl (db w)).
  { intros r Hr. specialize (Hlt (id r) (in_map id _ _ Hr)). lia. }
  pose proof (get_none _ _ Hfresh) as Hnone.
  split; [|split; [|split; [|split; [|split]]]].
  - unfold w, run. rewrite fold_left_app. cbn [fold_left serve].
    fold (run dl clock rs). fold w. now rewrite E.
  - cbn [id]. destruct (next_id_above dl (db w) Hseq) as [Hpos _]. exact Hpos.
  - exact Hnone.
  - cbn [id]. intros Hrange. unfold read_task.
    now rewrite (session_get_missing dl _ _ Hnone Hrange).
  - apply read_task_get. unfold get. cbn [db tasks id].
    now rewrite find_app_fresh.
  - intros other Hne. unfold read_task, session_get, get. cbn [db tasks].
    now rewrite find_app_other.
Qed.

(** *** Stored records stay within the constraints *)

Lemma serve_within_constraints dl clock w r :
  Forall within_constraints (tasks (db w)) ->
  Forall within_constraints (tasks (db (serve dl clock w r))).
Proof.
  intros Hw.
  destruct r as [body| | |task_id body|task_id| |]; cbn [serve]; try exact Hw.
  - destruct (post_tasks_outcome dl clock body w)
      as [->|(t & -> & _ & _ & _ & Ht & _)]; [exact Hw|].
    apply Forall_app. split; [exact Hw | now constructor].
  - destruct (put_task_outcome dl clock task_id body w)
      as [[-> _]|(t & t' & Hget & -> & _ & _ & _ & Ht & _)]; [exact Hw|].
    rewrite Forall_forall in Hw.
    apply Forall_forall. intros x Hx. apply in_rewritten in Hx.
    destruct Hx as [->|Hx]; [|now apply Hw].
    apply Ht, Hw. now apply get_in with task_id.
  - destruct (delete_task_outcome dl task_id w) as [->|(-> & _)]; [exact Hw|].
    apply Forall_forall. intros x Hx. apply filter_In in Hx.
    rewrite Forall_forall in Hw. now apply Hw.
Qed.

(** X3.  After any sequence of requests every stored record has a title of
    1 to 200 characters, a description that is absent or of at most 2000
    characters, and a priority from 1 to 3: no create or update writes a
    title, description or priority outside its constraint.  (The status is
    not among them: any string can be stored.) *)
Theorem stored_records_within_constraints :
  forall (dl : Dialect) (clock : nat -> Z) (rs : list Request) (t : Task),
    In t (tasks (db (run dl clock rs))) -> within_constraints t.
Proof.
  intros dl clock rs t Hin.
  assert (H : Forall within_constraints (tasks (db (run dl clock rs)))).
  { apply (run_invariant dl clock
             (fun w => Forall within_constraints (tasks (db w)))).
    - constructor.
    - intros w r. apply serve_within_constraints. }
  rewrite Forall_forall in H. now apply H.
Qed.

(** *** What an update touches *)

(** X4.  A PUT on one id, whether it succeeds or fails, leaves every other
    id reading exactly as before, and leaves the rows of the other ids as
    they were and in their order: an update adds and removes no row of
    another id, and moves none but its own. *)
Theorem update_leaves_other_records :
  forall (dl : Dialect) (clock : nat -> Z) (task_id : Z) (body : Payload)
         (w : World) (other : Z),
    other <> task_id ->
    read_task dl other (snd (put_task dl clock task_id body w))
      = read_task dl other w
    /\ filter (fun r => negb (id r =? task_id))
         (tasks (db (snd (put_task dl clock task_id body w))))
       = filter (fun r => negb (id r =? task_id)) (tasks (db w)).
Proof.
  intros dl clock task_id body w other Hne.
  destruct (put_task_outcome dl clock task_id body w)
    as [[E _]|(t & t' & Hget & Ht & _ & _ & Hid & _)].
  - unfold read_task, session_get, get. now rewrite E.
  - unfold read_task, session_get, get. rewrite Ht. split.
    + now rewrite find_rewritten_other.
    + now apply others_of_rewritten.
Qed.

(** X6.  The status follows no transition graph: for a stored record and
    any of the three statuses, whatever the current one, a PUT of that
    status alone succeeds and stores the record with the new status and the
    time of the update, every other field as it was. *)
Theorem any_status_follows_any :
  forall (dl : Dialect) (clock : nat -> Z) (task_id : Z) (s : string)
         (w : World) (t : Task),
    get task_id (db w) = Some t ->
    enumerated s ->
    exists w',
      put_task dl clock task_id (only_status s) w
        = (Return (with_status t s (clock (reads w))), w')
      /\ read_task dl task_id w' = Return (with_status t s (clock (reads w))).
Proof.
  intros dl clock task_id s w t Hget Hs.
  pose proof (get_id _ _ _ Hget) as Hid.
  unfold put_task. rewrite (only_status_valid s).
  rewrite (update_task_found dl clock task_id _ w t Hget), setattr_update_data.
  cbn. unfold with_status. rewrite <- Hid.
  eexists. split; [reflexivity|].
  apply read_task_get. unfold get. cbn [db tasks].
  apply find_rewritten with (t := t); [|reflexivity].
  unfold get in Hget. rewrite Hid. exact Hget.
Qed.

(** X13.  An update payload that sends [null] for title, status or priority
    passes validation when its other members do, but for a stored record
    the commit refuses it: the answer is the 500 of an unhandled integrity
    error and the table is not written, though the clock has been read. *)
Theorem null_for_required_column_is_refused :
  forall (dl : Dialect) (clock : nat -> Z) (task_id : Z) (u : TaskUpdate)
         (w : World) (t : Task),
    get task_id (db w) = Some t ->
    p_title u = Null \/ p_status u = Null \/ p_priority u = Null ->
    update_task dl clock task_id u w
      = (Raise (DatabaseError IntegrityError),
         {| db := db w; reads := S (reads w) |})
    /\ status_code 200 (fst (update_task dl clock task_id u w)) = 500
    /\ (update_ok u ->
        put_task dl clock task_id u w = update_task dl clock task_id u w).
Proof.
  intros dl clock task_id u w t Hget Hnull.
  assert (E : update_task dl clock task_id u w
              = (Raise (DatabaseError IntegrityError),
                 {| db := db w; reads := S (reads w) |})).
  { rewrite (update_task_found dl clock task_id u w t Hget), setattr_update_data.
    destruct u as [[| |a] b [| |c] [| |d]]; cbn in *;
      try reflexivity; destruct Hnull as [H|[H|H]]; discriminate. }
  split; [exact E|]. split; [now rewrite E|].
  intros Hok. unfold put_task.
  now rewrite (TaskUpdate_validate_complete u Hok).
Qed.

(** X11.  Sending the same update twice changes nothing the second time but
    the time of update: after a successful update of a stored record, the
    same payload succeeds again and returns the record of the first update
    with updated_at set to the next clock reading. *)
Theorem update_twice_only_restamps :
  forall (dl : Dialect) (clock : nat -> Z) (task_id : Z) (u : TaskUpdate)
         (w w1 : World) (t t1 : Task),
    get task_id (db w) = Some t ->
    update_task dl clock task_id u w = (Return t1, w1) ->
    exists w2,
      update_task dl clock task_id u w1
        = (Return (touched t1 (clock (S (reads w)))), w2)
      /\ read_task dl task_id w2 = Return (touched t1 (clock (S (reads w)))).
Proof.
  intros dl clock task_id u w w1 t t1 Hget Hupd.
  pose proof (get_id _ _ _ Hget) as Hid.
  rewrite (update_task_found dl clock task_id u w t Hget), setattr_update_data
    in Hupd.
  assert (Hfind : forall r l x, id r = task_id ->
            find (fun y => id y =? task_id) l = Some x ->
            find (fun y => id y =? task_id) (rewritten dl task_id r l) = Some r).
  { intros r l x Hr Hx. now apply find_rewritten with (t := x). }
  destruct u as [[| |a] [| |b] [| |c] [| |d]]; cbn in Hupd;
    try discriminate; injection Hupd as <- <-;
    (eexists; split;
     [ erewrite update_task_found
         by (unfold get; cbn [db tasks]; eapply Hfind; [reflexivity | exact Hget]);
       rewrite setattr_update_data; cbn; unfold touched; cbn; reflexivity
     | apply read_task_get; unfold get; cbn [db tasks];
       eapply Hfind; [reflexivity|];
       eapply Hfind; [reflexivity | exact Hget] ]).
Qed.

(** *** Deleting twice *)

(** X7.  After a DELETE of an id of 64 bits, whether it found a record or
    not, the id is gone: reading it, updating it and deleting it again each
    answer 404, and the second delete changes nothing. *)
Theorem delete_twice_is_not_found :
  forall (dl : Dialect) (clock : nat -> Z) (task_id : Z) (u : TaskUpdate)
         (w : World),
    in_int64 task_id ->
    read_task dl task_id (snd (delete_task dl task_id w))
      = Raise (HTTPException 404 (not_found_detail task_id))
    /\ delete_task dl task_id (snd (delete_task dl task_id w))
       = (Raise (HTTPException 404 (not_found_detail task_id)),
          snd (delete_task dl task_id w))
    /\ update_task dl clock task_id u (snd (delete_task dl task_id w))
       = (Raise (HTTPException 404 (not_found_detail task_id)),
          snd (delete_task dl task_id w)).
Proof.
  intros dl clock task_id u w Hrange.
  assert (Hnone : get task_id (db (snd (delete_task dl task_id w))) = None).
  { unfold delete_task, session_get.
    destruct (get task_id (db w)) eqn:G; cbn [snd].
    - unfold get, delete. cbn. apply find_deleted.
    - destruct dl; [exact G|]. destruct (fits_int64 task_id); exact G. }
  generalize dependent (snd (delete_task dl task_id w)). intros w' Hnone.
  unfold read_task, delete_task, update_task.
  rewrite (session_get_missing dl _ _ Hnone Hrange). repeat split.
Qed.

(** *** Statistics follow creations and deletions *)

Lemma get_stats_by_count dl w :
  get_stats dl w =
  Return {| total := List.length (tasks (db w));
            pending := count_status "pending" (tasks (db w));
            in_progress := count_status "in_progress" (tasks (db w));
            completed := count_status "completed" (tasks (db w)) |}.
Proof.
  apply get_stats_counts.
Qed.

Lemma count_status_snoc s (l : list Task) (t : Task) :
  count_status s (l ++ [t])
  = (count_status s l + one_if (String.eqb (status t) s))%nat.
Proof.
  unfold count_status. rewrite filter_app, length_app. cbn.
  now destruct (String.eqb (status t) s).
Qed.

Lemma count_status_without s (l1 l2 : list Task) (t : Task) :
  count_status s (l1 ++ t :: l2)
  = (count_status s (l1 ++ l2) + one_if (String.eqb (status t) s))%nat.
Proof.
  unfold count_status. rewrite !filter_app, !length_app. cbn.
  destruct (String.eqb (status t) s); cbn; lia.
Qed.

Lemma one_count_of_enumerated s :
  enumerated s ->
  (one_if (String.eqb s "pending") + one_if (String.eqb s "in_progress")
   + one_if (String.eqb s "completed") = 1)%nat.
Proof.
  intros [->|[->| ->]]; reflexivity.
Qed.

(** X8.  A create whose payload is valid, its status one of the three or
    left out, stores a record with the payload's status ("pending" when
    left out), adds one to the total of the statistics and one to the count
    of that status, and leaves the other two counts as they were: the three
    counts together rise by one. *)
Theorem stats_after_create :
  forall (dl : Dialect) (clock : nat -> Z) (body : Payload) (w : World),
    payload_ok body ->
    exists t w' s s',
      post_tasks dl clock body w = (Return t, w')
      /\ Some (status t) = assigned (p_status body) (Some "pending"%string)
      /\ enumerated (status t)
      /\ get_stats dl w = Return s
      /\ get_stats dl w' = Return s'
      /\ total s' = S (total s)
      /\ pending s' = (pending s + one_if (String.eqb (status t) "pending"))%nat
      /\ in_progress s'
         = (in_progress s + one_if (String.eqb (status t) "in_progress"))%nat
      /\ completed s'
         = (completed s + one_if (String.eqb (status t) "completed"))%nat
      /\ (pending s' + in_progress s' + completed s'
          = S (pending s + in_progress s + completed s))%nat.
Proof.
  intros dl clock body w Hok.
  destruct (TaskCreate_validate_complete body (payload_ok_create_ok body Hok))
    as [task V].
  pose proof (TaskCreate_validate_sound body task V) as (_ & _ & Hst & _).
  assert (Henum : enumerated (c_status task)).
  { destruct Hok as (_ & _ & [Hnn Hs] & _).
    destruct (p_status body) as [| |v] eqn:Es; cbn in Hst.
    - injection Hst as <-. now left.
    - discriminate.
    - injection Hst as <-. now apply Hs. }
  unfold post_tasks. rewrite V, create_task_inserts. cbv zeta.
  eexists. eexists. eexists. eexists.
  split; [reflexivity|]. cbn [status].
  split; [now symmetry|]. split; [exact Henum|].
  split; [apply get_stats_by_count|].
  split; [apply get_stats_by_count|].
  cbn [total pending in_progress completed db tasks].
  rewrite !count_status_snoc, length_app. cbn [status List.length].
  pose proof (one_count_of_enumerated _ Henum).
  repeat split; lia.
Qed.

(** X9.  In a store with a unique primary key, deleting a stored record
    takes one from the total of the statistics and one from the count of
    that record's status, and leaves the other two counts as they were; a
    record whose status is none of the three leaves all three counts as
    they were. *)
Theorem stats_after_delete :
  forall (dl : Dialect) (task_id : Z) (w : World) (t : Task),
    NoDup (map id (tasks (db w))) ->
    In t (tasks (db w)) -> id t = task_id ->
    exists w' s s',
      delete_task dl task_id w = (Return tt, w')
      /\ get_stats dl w = Return s
      /\ get_stats dl w' = Return s'
      /\ total s = S (total s')
      /\ pending s = (pending s' + one_if (String.eqb (status t) "pending"))%nat
      /\ in_progress s
         = (in_progress s' + one_if (String.eqb (status t) "in_progress"))%nat
      /\ completed s
         = (completed s' + one_if (String.eqb (status t) "completed"))%nat.
Proof.
  intros dl task_id w t Hnd Hin Hid.
  unfold delete_task.
  rewrite (session_get_found dl _ _ _ (get_unique task_id (db w) t Hnd Hin Hid)).
  destruct (delete_one task_id (tasks (db w)) t Hnd Hin Hid)
    as (l1 & l2 & E & E').
  eexists. eexists. eexists.
  split; [reflexivity|].
  split; [apply get_stats_by_count|].
  split; [apply get_stats_by_count|].
  cbn [total pending in_progress completed db tasks delete].
  rewrite E', E, !count_status_without, !length_app. cbn.
  repeat split. lia.
Qed.

(** *** What a request can change of a record *)

(** X12.  Across any single request, a record that is stored under an id
    before and after keeps its id and its created_at; and unless the
    request is a PUT on that very id, the whole record is unchanged. *)
Theorem requests_keep_id_and_created_at :
  forall (dl : Dialect) (clock : nat -> Z) (w : World) (r : Request)
         (j : Z) (t t' : Task),
    read_task dl j w = Return t ->
    read_task dl j (serve dl clock w r) = Return t' ->
    id t' = id t
    /\ created_at t' = created_at t
    /\ ((forall body, r <> PUT_task j body) -> t' = t).
Proof.
  intros dl clock w r j t t' Hbefore Hafter.
  apply read_task_get in Hbefore. apply read_task_get in Hafter.
  assert (Hsame : get j (db (serve dl clock w r)) = get j (db w) ->
                  id t' = id t /\ created_at t' = created_at t
                  /\ ((forall body, r <> PUT_task j body) -> t' = t)).
  { intros E. rewrite E, Hbefore in Hafter. injection Hafter as <-.
    repeat split. }
  destruct r as [body| | |task_id body|task_id| |]; cbn [serve] in *;
    try (apply Hsame; reflexivity).
  - destruct (post_tasks_outcome dl clock body w)
      as [E|(x & Ht & _)]; [apply Hsame; now rewrite E|].
    apply Hsame. unfold get in *. rewrite Ht, Hbefore.
    now apply find_app_found.
  - destruct (put_task_outcome dl clock task_id body w)
      as [[E _]|(t0 & t1 & Hget & Ht & _ & _ & Hid & _ & Hc & _)];
      [apply Hsame; unfold get; now rewrite E|].
    destruct (Z.eq_dec j task_id) as [->|Hne].
    + unfold get in Hafter. rewrite Ht in Hafter.
      rewrite (find_rewritten dl task_id t1 _ t0 Hget Hid) in Hafter.
      injection Hafter as <-. rewrite Hbefore in Hget. injection Hget as <-.
      split; [rewrite Hid; symmetry; now apply get_id with (db w)|].
      split; [exact Hc|]. intros Hnot. now destruct (Hnot body).
    + apply Hsame. unfold get. rewrite Ht. now apply find_rewritten_other.
  - destruct (delete_task_outcome dl task_id w) as [E|(Ht & _)];
      [apply Hsame; now rewrite E|].
    destruct (Z.eq_dec j task_id) as [->|Hne].
    + unfold get in Hafter. rewrite Ht, find_deleted in Hafter. discriminate.
    + apply Hsame. unfold get. rewrite Ht. now apply find_not_deleted.
Qed.

(* ================================================================== *)
(** ** Properties of the start-up code *)
(* ================================================================== *)

Import Startup.

Lemma split_head (sep : ascii) (s : string) :
  exists piece pieces,
    split sep s = piece :: pieces
    /\ contains sep piece = false
    /\ ((pieces = [] /\ s = piece /\ contains sep s = false)
        \/ (exists r, s = (piece ++ String sep r)%string
                      /\ pieces = split sep r
                      /\ contains sep s = true)).
Proof.
  induction s as [|x s IH].
  - exists EmptyString, []. cbn. split; [reflexivity|]. split; [reflexivity|].
    left. repeat split.
  - destruct IH as (p & ps & E & Hp & Hcases).
    cbn [split contains]. destruct (Ascii.eqb_spec x sep) as [->|Hne].
    + exists EmptyString, (split sep s). split; [reflexivity|].
      split; [reflexivity|]. right. exists s. cbn. repeat split.
    + rewrite E. exists (String x p), ps. split; [reflexivity|].
      split.
      * cbn. apply Ascii.eqb_neq in Hne. now rewrite Hne.
      * cbn [orb]. destruct Hcases as [(-> & -> & Hs)|(r & -> & -> & Hs)].
        -- left. repeat split. exact Hp.
        -- right. exists r. cbn. repeat split. exact Hs.
Qed.

Lemma database_label_total (url : string) :
  exists label, database_label url = Some label.
Proof.
  unfold database_label.
  destruct (contains "@" url) eqn:C; [|eauto].
  destruct (split_head "@" url) as (p & ps & E & _ & Hcases).
  destruct Hcases as [(_ & _ & Hno)|(r & _ & -> & _)]; [congruence|].
  destruct (split_head "@" r) as (q & qs & E' & _).
  rewrite E, E'. cbn. eauto.
Qed.

(** X14.  The database label printed at start-up never fails on its index:
    for a URL without "@" it is "Not configured"; for a URL with "@" it is
    the text between the first "@" and the next one (or the end), which is
    the host part only when the URL has a single "@". *)
Theorem database_label_is_second_piece :
  forall (url : string),
    exists label,
      database_label url = Some label
      /\ (contains "@" url = false -> label = "Not configured"%string)
      /\ (contains "@" url = true ->
          exists before rest,
            url = (before ++ "@" ++ label ++ rest)%string
            /\ contains "@" before = false
            /\ contains "@" label = false
            /\ (rest = EmptyString \/ exists r, rest = String "@" r)).
Proof.
  intros url. unfold database_label.
  destruct (contains "@" url) eqn:C.
  - destruct (split_head "@" url) as (p & ps & E & Hp & Hcases).
    destruct Hcases as [(_ & _ & Hno)|(r & -> & -> & _)]; [congruence|].
    destruct (split_head "@" r) as (q & qs & E' & Hq & Hcases').
    rewrite E, E'. cbn [nth_error].
    exists q. split; [reflexivity|]. split; [discriminate|].
    intros _. exists p.
    destruct Hcases' as [(_ & -> & _)|(r' & -> & _ & _)].
    + exists EmptyString. split; [|split; [exact Hp | split; [exact Hq | now left]]].
      cbn. f_equal. f_equal. clear. induction q as [|c q IH]; cbn; congruence.
    + exists (String "@" r'). split; [reflexivity|].
      split; [exact Hp|]. split; [exact Hq|]. right. now exists r'.
  - exists "Not configured"%string. split; [reflexivity|].
    split; [reflexivity | discriminate].
Qed.

(** X15.  Start-up ends ready exactly when the tables could be created: it
    then prints four lines, the last one the ready line.  When the creation
    raises, the handler prints the error line last, never prints the ready
    line, and ends with the same exception raised again. *)
Theorem on_startup_is_ready_iff_tables_created :
  forall (settings : Settings) (create_all : option string),
    snd (on_startup settings create_all) <> IndexError
    /\ (create_all = None ->
        snd (on_startup settings create_all) = Ready
        /\ List.length (fst (on_startup settings create_all)) = 4%nat
        /\ last (fst (on_startup settings create_all)) EmptyString
           = "[OK] API ready to accept requests"%string)
    /\ (forall e, create_all = Some e ->
        snd (on_startup settings create_all) = Raised e
        /\ last (fst (on_startup settings create_all)) EmptyString
           = ("[ERROR] Database error: " ++ e)%string
        /\ ~ In "[OK] API ready to accept requests"%string
               (fst (on_startup settings create_all))).
Proof.
  intros settings create_all. unfold on_startup.
  destruct (database_label_total (database_url settings)) as (label & ->).
  destruct create_all as [e|]; cbn.
  - split; [discriminate|]. split; [discriminate|].
    intros e' E. injection E as <-. split; [reflexivity|].
    split; [reflexivity|].
    intros [H|[H|[H|[]]]]; discriminate.
  - split; [discriminate|]. split; [repeat split | discriminate].
Qed.

(* ================================================================== *)
(** ** Properties of Class-2/main.py *)
(* ================================================================== *)

Import Class2.

(** X16.  [tasks_2] answers every integer with a dictionary and never with
    an error status: it carries the requested id, with the task "Go
    jogging", exactly when the id is at least 1, and only an empty error
    message otherwise.  It knows nothing of the todo list: every id the
    list has is answered, but with a task the list does not give it. *)
Theorem tasks_2_echoes_positive_ids :
  forall (task_id : Z),
    (lookup "id" (tasks_2 task_id) = Some (Int task_id) <-> 1 <= task_id)
    /\ (lookup "error" (tasks_2 task_id) = Some (Str "") <-> task_id < 1)
    /\ (lookup "task" (tasks_2 task_id) = Some (Str "Go jogging")
        <-> 1 <= task_id)
    /\ (forall item, In item todo_app ->
          lookup "id" item = Some (Int task_id) ->
          lookup "id" (tasks_2 task_id) = Some (Int task_id)
          /\ lookup "task" (tasks_2 task_id) <> lookup "task" item).
Proof.
  intros task_id. unfold tasks_2.
  destruct (Z.ltb_spec task_id 1) as [Hlt|Hge]; cbn;
    (split; [split; intros H; try reflexivity; try discriminate; lia|]);
    (split; [split; intros H; try reflexivity; try discriminate; lia|]);
    (split; [split; intros H; try reflexivity; try discriminate; lia|]);
    intros item Hin Hid; unfold todo_app in Hin.
  - repeat (destruct Hin as [<-|Hin];
            [cbn in Hid; injection Hid as Hid; lia|]).
    contradiction.
  - repeat (destruct Hin as [<-|Hin];
            [split; [reflexivity | cbn; discriminate]|]).
    contradiction.
Qed.

(* ================================================================== *)
(** ** The scenarios of test_main.py *)
(* ================================================================== *)

Example pagination_of_five :
  list_tasks PostgreSQL 2 2 None (run PostgreSQL ticking five_tasks)
  = Return [task_numbered 3 "Task 3" 1004 1005;
            task_numbered 4 "Task 4" 1006 1007].
Proof. reflexivity. Qed.

Example delete_middle_of_three :
  let w := run SQLite ticking
             [POST_tasks (only_title "Task 1"); POST_tasks (only_title "Task 2");
              POST_tasks (only_title "Task 3"); DELETE_task 2] in
  read_task SQLite 1 w = Return (task_numbered 1 "Task 1" 1000 1001)
  /\ read_task SQLite 2 w = Raise (HTTPException 404 "Task with ID 2 not found")
  /\ read_task SQLite 3 w = Return (task_numbered 3 "Task 3" 1004 1005).
Proof. repeat split. Qed.

Example invalid_priority_on_create :
  post_tasks SQLite ticking priority_five initial
  = (Raise (RequestValidationError
              [{| loc := "priority"; msg := less_than_equal |}]),
     initial).
Proof. reflexivity. Qed.

(** The route validates the body before the handler looks the id up. *)
Example invalid_body_for_unknown_id :
  put_task SQLite ticking 999 (only_priority 5) (run SQLite ticking five_tasks)
  = (Raise (RequestValidationError
              [{| loc := "priority"; msg := less_than_equal |}]),
     run SQLite ticking five_tasks).
Proof. reflexivity. Qed.

(** A status outside the enumeration is no validation error: on an unknown
    id the answer is the 404 of the handler, on a stored id the status is
    written. *)
Example status_outside_enumeration_on_update :
  let w := run SQLite ticking five_tasks in
  fst (put_task SQLite ticking 999 (only_status "invalid") w)
  = Raise (HTTPException 404 "Task with ID 999 not found")
  /\ fst (put_task SQLite ticking 1 (only_status "invalid") w)
     = Return (with_status (task_numbered 1 "Task 1" 1000 1001) "invalid" 1010).
Proof. repeat split. Qed.

(** An explicit [null] passes the validation of [TaskUpdate]; for the
    Optional column it clears the value, for a NOT NULL column the commit
    fails and nothing is written. *)
Example null_in_update :
  let w := run SQLite ticking five_tasks in
  let null_title := {| p_title := Null; p_description := Unset;
                       p_status := Unset; p_priority := Unset |} in
  TaskUpdate_validate null_title = inr null_title
  /\ fst (put_task SQLite ticking 1 null_title w)
     = Raise (DatabaseError IntegrityError)
  /\ db (snd (put_task SQLite ticking 1 null_title w)) = db w.
Proof. repeat split. Qed.

(** *** Inputs at which the specification and the program part *)


(** C5, as stated, fails: a request with limit 0, and a request with a
    status filter that is not an enumerated value, is executed and answered
    with a success by either engine. *)
Lemma list_tasks_runs_unchecked_request :
  let w := run PostgreSQL ticking five_tasks in
  ~ 0 < 0
  /\ ~ enumerated "urgent"
  /\ list_tasks PostgreSQL 0 0 None w = Return []
  /\ list_tasks SQLite 0 0 None w = Return []
  /\ list_tasks PostgreSQL 0 100 (Some "urgent"%string) w = Return []
  /\ list_tasks SQLite 0 100 (Some "urgent"%string) w = Return []
  /\ status_code 200 (list_tasks PostgreSQL 0 0 (Some "urgent"%string) w) = 200.
Proof.
  intros w. split; [lia|]. split.
  - intros [H|[H|H]]; discriminate.
  - repeat split.
Qed.

(** C6, as stated, fails: on SQLite the id 2^63, which no record has, is
    answered by the three handlers with the 500 of an OverflowError, not
    with a 404. *)
Lemma unknown_id_outside_int64_is_an_error :
  let w := run SQLite ticking five_tasks in
  (forall t, In t (tasks (db w)) -> id t <> 2 ^ 63)
  /\ read_task SQLite (2 ^ 63) w = Raise (DatabaseError OverflowError)
  /\ status_code 200 (read_task SQLite (2 ^ 63) w) = 500
  /\ fst (update_task SQLite ticking (2 ^ 63) (only_status "completed") w)
     = Raise (DatabaseError OverflowError)
  /\ fst (delete_task SQLite (2 ^ 63) w) = Raise (DatabaseError OverflowError).
Proof.
  intros w. split; [|repeat split].
  intros t Hin. cbn in Hin.
  repeat (destruct Hin as [<-|Hin]; [discriminate|]). contradiction.
Qed.

(** C9, as stated, fails: when the clock is set back between the two
    readings of a creation, the record is stored with an updated_at before
    its created_at. *)
Lemma updated_at_before_created_at_when_clock_set_back :
  let w := run SQLite set_back [POST_tasks (only_title "Task")] in
  let t := task_numbered 1 "Task" 1000 999 in
  In t (tasks (db w)) /\ updated_at t < created_at t.
Proof.
  intros w t. split; [now left | cbn; lia].
Qed.

(** *** Instances of the theorems above *)

Lemma update_task_merges_payload_witness :
  let w := run PostgreSQL ticking five_tasks in
  get 2 (db w) = Some (task_numbered 2 "Task 2" 1002 1003)
  /\ exists t' w',
       update_task PostgreSQL ticking 2 (only_status "completed") w
         = (Return t', w')
       /\ get 2 (db w') = Some t'
       /\ status t' = "completed"%string
       /\ title t' = "Task 2"%string
       /\ priority t' = 1
       /\ updated_at t' = 1010.
Proof.
  intros w. split; [reflexivity|].
  destruct (update_task_merges_payload PostgreSQL ticking 2
              (only_status "completed") w
              (task_numbered 2 "Task 2" 1002 1003) eq_refl) as [Hruns Hfields].
  destruct Hruns as (t' & w' & E); try discriminate.
  exists t', w'. split; [exact E|].
  destruct (Hfields t' w' E)
    as (Hget & [_ Ht] & _ & [Hs _] & [_ Hp] & _ & _ & Hu).
  split; [exact Hget|]. split; [now apply Hs|].
  split; [now apply Ht|]. split; [now apply Hp | exact Hu].
Defined.


Lemma list_tasks_checks_no_parameter_witness :
  let w := run PostgreSQL ticking five_tasks in
  exists l, list_tasks PostgreSQL 0 100 (Some "urgent"%string) w = Return l
            /\ l = page 0 100 (Some "urgent"%string) (tasks (db w)).
Proof.
  intros w.
  destruct (list_tasks_checks_no_parameter PostgreSQL 0 100
              (Some "urgent"%string) w) as [Hruns _].
  destruct Hruns as (l & E & _ & Hpage & _); [lia | lia |].
  exists l. split; [exact E|].
  apply (Hpage "urgent"%string eq_refl). discriminate.
Defined.

Lemma unknown_id_is_not_found_witness :
  let w := run SQLite ticking five_tasks in
  (forall t, In t (tasks (db w)) -> id t <> 999)
  /\ in_int64 999
  /\ read_task SQLite 999 w
     = Raise (HTTPException 404 "Task with ID 999 not found")
  /\ update_task SQLite ticking 999 (only_status "completed") w
     = (Raise (HTTPException 404 "Task with ID 999 not found"), w)
  /\ delete_task SQLite 999 w
     = (Raise (HTTPException 404 "Task with ID 999 not found"), w).
Proof.
  intros w.
  assert (H : forall t, In t (tasks (db w)) -> id t <> 999).
  { intros t Hin. cbn in Hin.
    repeat (destruct Hin as [<-|Hin]; [discriminate|]). contradiction. }
  assert (Hrange : in_int64 999) by (unfold in_int64; lia).
  split; [exact H|]. split; [exact Hrange|].
  destruct (unknown_id_is_not_found SQLite ticking 999
              (only_status "completed") w H) as [Hin _].
  destruct (Hin Hrange) as (Hr & Hu & Hd & _).
  split; [exact Hr|]. split; [exact Hu | exact Hd].
Defined.

Lemma delete_task_removes_one_record_witness :
  let w := run SQLite ticking five_tasks in
  let t := task_numbered 2 "Task 2" 1002 1003 in
  NoDup (map id (tasks (db w))) /\ In t (tasks (db w)) /\ id t = 2
  /\ exists w',
       delete_task SQLite 2 w = (Return tt, w')
       /\ read_task SQLite 2 w' = Raise (HTTPException 404 (not_found_detail 2))
       /\ read_task SQLite 3 w' = read_task SQLite 3 w.
Proof.
  intros w t.
  assert (Hnd : NoDup (map id (tasks (db w)))).
  { apply (proj1 (run_primary_key SQLite ticking five_tasks)). }
  assert (Hin : In t (tasks (db w))).
  { cbn. right. left. reflexivity. }
  split; [exact Hnd|]. split; [exact Hin|]. split; [reflexivity|].
  destruct (delete_task_removes_one_record SQLite 2 w t Hnd Hin eq_refl)
    as (w' & Hdel & _ & Hgone & Hothers & _).
  exists w'. split; [exact Hdel|]. split.
  - apply Hgone. unfold in_int64. lia.
  - apply Hothers. discriminate.
Defined.

Lemma create_with_title_only_uses_defaults_witness :
  (1 <= String.length "Simple task" <= 200)%nat
  /\ exists t w',
       post_tasks PostgreSQL ticking (only_title "Simple task") initial
         = (Return t, w')
       /\ status t = "pending"%string /\ priority t = 1 /\ description t = None.
Proof.
  assert (Hlen : (1 <= String.length "Simple task" <= 200)%nat)
    by (cbn; lia).
  split; [exact Hlen|].
  destruct (create_with_title_only_uses_defaults PostgreSQL ticking
              "Simple task" initial Hlen)
    as (t & w' & E & _ & _ & Hs & Hp & Hd).
  exists t, w'. repeat split; assumption.
Defined.

Lemma updated_at_not_before_created_at_witness :
  let rs := five_tasks ++ [PUT_task 2 (only_status "completed")] in
  let t := {| id := 2; title := "Task 2"; description := None;
              status := "completed"; priority := 1;
              created_at := 1002; updated_at := 1010 |} in
  (forall n m, (n <= m)%nat -> ticking n <= ticking m)
  /\ In t (tasks (db (run SQLite ticking rs)))
  /\ created_at t <= updated_at t.
Proof.
  intros rs t.
  assert (Hmono : forall n m, (n <= m)%nat -> ticking n <= ticking m).
  { intros n m H. unfold ticking. lia. }
  assert (Hin : In t (tasks (db (run SQLite ticking rs)))).
  { cbn. right. left. reflexivity. }
  split; [exact Hmono|]. split; [exact Hin|].
  exact (updated_at_not_before_created_at SQLite ticking rs Hmono t Hin).
Defined.

Lemma consecutive_pages_concatenate_witness :
  let w := run SQLite ticking five_tasks in
  0 <= 1 /\ 0 <= 2 /\ 0 <= 2 /\ 1 + 2 < 2 ^ 63 /\ 2 + 2 < 2 ^ 63
  /\ exists l1 l2,
       list_tasks SQLite 1 2 None w = Return l1
       /\ list_tasks SQLite (1 + 2) 2 None w = Return l2
       /\ list_tasks SQLite 1 (2 + 2) None w = Return (l1 ++ l2).
Proof.
  intros w. split; [lia|]. split; [lia|]. split; [lia|].
  split; [lia|]. split; [lia|].
  apply (consecutive_pages_concatenate SQLite 1 2 2 None w); lia.
Defined.


Lemma update_validates_payload_witness :
  let w := run SQLite ticking five_tasks in
  ~ update_ok (only_priority 5)
  /\ exists errors,
       put_task SQLite ticking 999 (only_priority 5) w
         = (Raise (RequestValidationError errors), w)
       /\ errors <> []
       /\ In "priority"%string (map loc errors).
Proof.
  intros w.
  assert (Hprio : ~ update_priority_ok (only_priority 5)).
  { intros H. specialize (H 5 eq_refl). lia. }
  assert (Hbad : ~ update_ok (only_priority 5)).
  { intros (_ & _ & H). exact (Hprio H). }
  split; [exact Hbad|].
  destruct (update_validates_payload SQLite ticking 999 (only_priority 5) w)
    as [_ Hreject].
  destruct (Hreject Hbad) as (errors & E & _ & Hne & Hnames).
  exists errors. split; [exact E|]. split; [exact Hne|].
  apply Hnames. right. right. split; [reflexivity | exact Hprio].
Defined.

Lemma create_validates_title_description_priority_witness :
  create_ok bad_status
  /\ exists t w',
       post_tasks SQLite ticking bad_status initial = (Return t, w')
       /\ tasks (db w') = [t]
       /\ Some (status t) = Some "invalid_status"%string.
Proof.
  assert (Hok : create_ok bad_status).
  { split; [|split; [|split]].
    - exists "Task with bad status"%string. split; [reflexivity | cbn; lia].
    - intros s H. discriminate.
    - discriminate.
    - split; [discriminate | intros n H; discriminate]. }
  split; [exact Hok|].
  destruct (create_validates_title_description_priority SQLite ticking
              bad_status initial) as [Haccept _].
  destruct (Haccept Hok) as (t & w' & E & Htasks & Hs).
  exists t, w'. split; [exact E|]. split; [exact Htasks | exact Hs].
Defined.

Lemma create_then_read_witness :
  payload_ok (only_title "Task 6")
  /\ exists t w',
       post_tasks SQLite ticking (only_title "Task 6")
         (run SQLite ticking (five_tasks ++ [DELETE_task 5])) = (Return t, w')
       /\ 0 < id t
       /\ read_task SQLite (id t) w' = Return t.
Proof.
  assert (Hok : payload_ok (only_title "Task 6"))
    by (apply only_title_ok; cbn; lia).
  split; [exact Hok|].
  destruct (create_then_read SQLite ticking (five_tasks ++ [DELETE_task 5])
              (only_title "Task 6") Hok)
    as (t & w' & E & _ & Hpos & _ & _ & Hread & _).
  exists t, w'. split; [exact E|]. split; [exact Hpos | exact Hread].
Defined.

Lemma stored_records_within_constraints_witness :
  let rs := five_tasks ++ [PUT_task 2 (only_status "completed")] in
  let t := {| id := 2; title := "Task 2"; description := None;
              status := "completed"; priority := 1;
              created_at := 1002; updated_at := 1010 |} in
  In t (tasks (db (run PostgreSQL ticking rs))) /\ within_constraints t.
Proof.
  intros rs t.
  assert (Hin : In t (tasks (db (run PostgreSQL ticking rs)))).
  { cbn. do 4 right. left. reflexivity. }
  split; [exact Hin|].
  exact (stored_records_within_constraints PostgreSQL ticking rs t Hin).
Defined.

Lemma update_leaves_other_records_witness :
  let w := run PostgreSQL ticking five_tasks in
  1 <> 2
  /\ read_task PostgreSQL 1
       (snd (put_task PostgreSQL ticking 2 (only_status "completed") w))
     = read_task PostgreSQL 1 w.
Proof.
  intros w. split; [discriminate|].
  apply (update_leaves_other_records PostgreSQL ticking 2
           (only_status "completed") w 1).
  discriminate.
Defined.

Lemma any_status_follows_any_witness :
  let w := run SQLite ticking
             (five_tasks ++ [PUT_task 2 (only_status "completed")]) in
  let t := {| id := 2; title := "Task 2"; description := None;
              status := "completed"; priority := 1;
              created_at := 1002; updated_at := 1010 |} in
  get 2 (db w) = Some t
  /\ enumerated "pending"
  /\ exists w',
       put_task SQLite ticking 2 (only_status "pending") w
         = (Return (with_status t "pending" (ticking (reads w))), w').
Proof.
  intros w t.
  assert (Hs : enumerated "pending") by (now left).
  split; [reflexivity|]. split; [exact Hs|].
  destruct (any_status_follows_any SQLite ticking 2 "pending" w t eq_refl Hs)
    as (w' & E & _).
  exists w'. exact E.
Defined.

Lemma null_for_required_column_is_refused_witness :
  let w := run SQLite ticking five_tasks in
  let u := {| p_title := Null; p_description := Unset;
              p_status := Unset; p_priority := Unset |} in
  get 1 (db w) = Some (task_numbered 1 "Task 1" 1000 1001)
  /\ (p_title u = Null \/ p_status u = Null \/ p_priority u = Null)
  /\ update_task SQLite ticking 1 u w
     = (Raise (DatabaseError IntegrityError),
        {| db := db w; reads := S (reads w) |}).
Proof.
  intros w u.
  assert (Hnull : p_title u = Null \/ p_status u = Null \/ p_priority u = Null)
    by (now left).
  split; [reflexivity|]. split; [exact Hnull|].
  destruct (null_for_required_column_is_refused SQLite ticking 1 u w
              (task_numbered 1 "Task 1" 1000 1001) eq_refl Hnull) as [E _].
  exact E.
Defined.

Lemma update_twice_only_restamps_witness :
  let w := run SQLite ticking five_tasks in
  let t := task_numbered 3 "Task 3" 1004 1005 in
  let t1 := with_status t "in_progress" 1010 in
  let w1 := snd (update_task SQLite ticking 3 (only_status "in_progress") w) in
  get 3 (db w) = Some t
  /\ update_task SQLite ticking 3 (only_status "in_progress") w = (Return t1, w1)
  /\ exists w2,
       update_task SQLite ticking 3 (only_status "in_progress") w1
         = (Return (touched t1 (ticking (S (reads w)))), w2).
Proof.
  intros w t t1 w1. split; [reflexivity|]. split; [reflexivity|].
  destruct (update_twice_only_restamps SQLite ticking 3
              (only_status "in_progress") w w1 t t1 eq_refl eq_refl)
    as (w2 & E & _).
  exists w2. exact E.
Defined.

Lemma delete_twice_is_not_found_witness :
  let w := run SQLite ticking five_tasks in
  in_int64 2
  /\ read_task SQLite 2 (snd (delete_task SQLite 2 w))
     = Raise (HTTPException 404 (not_found_detail 2)).
Proof.
  intros w.
  assert (Hrange : in_int64 2) by (unfold in_int64; lia).
  split; [exact Hrange|].
  destruct (delete_twice_is_not_found SQLite ticking 2
              (only_status "completed") w Hrange) as [E _].
  exact E.
Defined.

Lemma stats_after_create_witness :
  payload_ok (only_title "Task 6")
  /\ exists t w' s s',
       post_tasks PostgreSQL ticking (only_title "Task 6")
         (run PostgreSQL ticking five_tasks) = (Return t, w')
       /\ enumerated (status t)
       /\ get_stats PostgreSQL (run PostgreSQL ticking five_tasks) = Return s
       /\ get_stats PostgreSQL w' = Return s'
       /\ total s' = S (total s).
Proof.
  assert (Hok : payload_ok (only_title "Task 6"))
    by (apply only_title_ok; cbn; lia).
  split; [exact Hok|].
  destruct (stats_after_create PostgreSQL ticking (only_title "Task 6")
              (run PostgreSQL ticking five_tasks) Hok)
    as (t & w' & s & s' & E & _ & Hen & Es & Es' & Htotal & _).
  exists t, w', s, s'. repeat split; assumption.
Defined.

Lemma stats_after_delete_witness :
  let w := run SQLite ticking five_tasks in
  let t := task_numbered 2 "Task 2" 1002 1003 in
  NoDup (map id (tasks (db w))) /\ In t (tasks (db w)) /\ id t = 2
  /\ exists w' s s',
       delete_task SQLite 2 w = (Return tt, w')
       /\ get_stats SQLite w = Return s
       /\ get_stats SQLite w' = Return s'
       /\ total s = S (total s').
Proof.
  intros w t.
  assert (Hnd : NoDup (map id (tasks (db w)))).
  { apply (proj1 (run_primary_key SQLite ticking five_tasks)). }
  assert (Hin : In t (tasks (db w))).
  { cbn. right. left. reflexivity. }
  split; [exact Hnd|]. split; [exact Hin|]. split; [reflexivity|].
  destruct (stats_after_delete SQLite 2 w t Hnd Hin eq_refl)
    as (w' & s & s' & E & Es & Es' & Htotal & _).
  exists w', s, s'. repeat split; assumption.
Defined.

Lemma requests_keep_id_and_created_at_witness :
  let w := run PostgreSQL ticking five_tasks in
  let t := task_numbered 2 "Task 2" 1002 1003 in
  let t' := with_status t "completed" 1010 in
  read_task PostgreSQL 2 w = Return t
  /\ read_task PostgreSQL 2
       (serve PostgreSQL ticking w (PUT_task 2 (only_status "completed")))
     = Return t'
  /\ id t' = id t /\ created_at t' = created_at t.
Proof.
  intros w t t'. split; [reflexivity|]. split; [reflexivity|].
  destruct (requests_keep_id_and_created_at PostgreSQL ticking w
              (PUT_task 2 (only_status "completed")) 2 t t' eq_refl eq_refl)
    as (Hid & Hc & _).
  split; [exact Hid | exact Hc].
Defined.
